(** * sc-component-manager: graph queries, download handler, install checks

    A shallow embedding of
    - [src/manager/utils/sc_component_utils.cpp]
      ([SearchUtils], [InstallUtils]) and
    - [src/manager/commands/command_init/repos_downloader/downloader_handler.cpp]
      ([DownloaderHandler])
    over a small executable model of the sc-memory graph store the code queries
    through [ScMemoryContext]. *)

From Stdlib Require Import List String Bool Arith NArith Lia.
From Stdlib Require Import Ascii.
Import ListNotations.
Open Scope string_scope.
Open Scope list_scope.
Open Scope nat_scope.

(** ** sc-memory: addresses, element types, the store *)

Module ScMemory.

(** [ScAddr]: an opaque handle; [ScAddr::Empty] is the one invalid handle. *)
Definition ScAddr := nat.
Definition Empty : ScAddr := 0.
Definition IsValid (a : ScAddr) : bool := negb (a =? Empty).

(** [ScType]: a bit mask ([sc_type]).  The masks below are those of
    sc-memory's [sc_types.h], a header of the store the component manager is
    built on; the properties proved further down hold whatever their values,
    only the sample knowledge bases are written with them. *)
Definition ScType := N.

Module ScType.
Definition Unknown : ScType := 0%N.
Definition sc_type_node : ScType := 0x1%N.
Definition sc_type_link : ScType := 0x2%N.
Definition sc_type_dedge_common : ScType := 0x8%N.
Definition sc_type_edge_access : ScType := 0x10%N.
Definition sc_type_const : ScType := 0x20%N.
Definition sc_type_edge_pos : ScType := 0x80%N.
Definition sc_type_edge_perm : ScType := 0x800%N.
Definition sc_type_node_tuple : ScType := 0x80%N.

Definition NodeConst : ScType := N.lor sc_type_node sc_type_const.
Definition NodeTuple : ScType := N.lor sc_type_node sc_type_node_tuple.
Definition LinkConst : ScType := N.lor sc_type_link sc_type_const.
Definition EdgeDCommonConst : ScType := N.lor sc_type_dedge_common sc_type_const.
Definition EdgeAccessConstPosPerm : ScType :=
  N.lor (N.lor sc_type_edge_access sc_type_const)
        (N.lor sc_type_edge_pos sc_type_edge_perm).
End ScType.

(** An iterator's type parameter [it] accepts an element of type [el] when
    every bit of [it] is set in [el]; [ScType::Unknown] accepts everything. *)
Definition type_matches (el it : ScType) : bool := N.eqb (N.land it el) it.

(** Elements of the store.  An arc may start or end at any element, also at
    another arc (that is how a relation marks a pair). *)
Inductive ScElement : Type :=
| ScNode (type : ScType)
| ScLink (type : ScType) (content : string)
| ScArc (type : ScType) (source target : ScAddr).

Definition element_type (e : ScElement) : ScType :=
  match e with
  | ScNode t => t
  | ScLink t _ => t
  | ScArc t _ _ => t
  end.

(** The store: the element at position [i] has address [S i]; system
    identifiers are kept beside it. *)
Record ScMemoryContext : Type := mkContext {
  elements : list ScElement;
  identifiers : list (ScAddr * string)
}.

Definition GetElement (ctx : ScMemoryContext) (a : ScAddr) : option ScElement :=
  match a with
  | O => None
  | S i => nth_error (elements ctx) i
  end.

Definition GetElementType (ctx : ScMemoryContext) (a : ScAddr) : option ScType :=
  option_map element_type (GetElement ctx a).

Definition element_matches (ctx : ScMemoryContext) (a : ScAddr) (it : ScType) : bool :=
  match GetElementType ctx a with
  | Some t => type_matches t it
  | None => false
  end.

(** [GetLinkContent(addr, out)]: [Some] content for a link; [None] (the C++
    returns [false] and leaves [out] as it was) otherwise. *)
Definition GetLinkContent (ctx : ScMemoryContext) (a : ScAddr) : option string :=
  match GetElement ctx a with
  | Some (ScLink _ c) => Some c
  | _ => None
  end.

(** The same with the out-parameter written out: [out] is the value the
    caller's string had before the call. *)
Definition GetLinkContent_into (ctx : ScMemoryContext) (a : ScAddr) (out : string) : string :=
  match GetLinkContent ctx a with
  | Some c => c
  | None => out
  end.

Fixpoint lookup_idtf (a : ScAddr) (l : list (ScAddr * string)) : string :=
  match l with
  | [] => ""
  | (b, s) :: r => if a =? b then s else lookup_idtf a r
  end.

(** [HelperGetSystemIdtf]: the empty string when the element has none. *)
Definition HelperGetSystemIdtf (ctx : ScMemoryContext) (a : ScAddr) : string :=
  lookup_idtf a (identifiers ctx).

(** *** Arcs of the store, in storage order *)

Record Arc : Type := mkArc {
  arc_addr : ScAddr;
  arc_type : ScType;
  arc_source : ScAddr;
  arc_target : ScAddr
}.

Fixpoint arcs_from (n : nat) (els : list ScElement) : list Arc :=
  match els with
  | [] => []
  | ScArc t s d :: r => mkArc n t s d :: arcs_from (S n) r
  | _ :: r => arcs_from (S n) r
  end.

Definition arcs (ctx : ScMemoryContext) : list Arc := arcs_from 1 (elements ctx).

(** *** Iterators

    An iterator is modelled by the list of the tuples it yields:
    [it->Next()] succeeds while the list is not empty, [it->Get(2)] is the
    third component of the current tuple. *)

Record Triple : Type := mkTriple { t0 : ScAddr; t1 : ScAddr; t2 : ScAddr }.
Record Quint : Type :=
  mkQuint { q0 : ScAddr; q1 : ScAddr; q2 : ScAddr; q3 : ScAddr; q4 : ScAddr }.

(** [Iterator3(source, arcType, targetType)] *)
Definition Iterator3_f_a_a (ctx : ScMemoryContext) (src : ScAddr) (arcT tgtT : ScType)
  : list Triple :=
  map (fun a => mkTriple src (arc_addr a) (arc_target a))
      (filter (fun a => (arc_source a =? src)
                        && type_matches (arc_type a) arcT
                        && element_matches ctx (arc_target a) tgtT)
              (arcs ctx)).

(** [Iterator3(source, arcType, target)] *)
Definition Iterator3_f_a_f (ctx : ScMemoryContext) (src : ScAddr) (arcT : ScType)
  (tgt : ScAddr) : list Triple :=
  map (fun a => mkTriple src (arc_addr a) tgt)
      (filter (fun a => (arc_source a =? src)
                        && type_matches (arc_type a) arcT
                        && (arc_target a =? tgt))
              (arcs ctx)).

(** [Iterator5(source, arcType, targetType, attrArcType, relation)]: the
    arcs out of [source] that [relation] marks with an arc of its own. *)
Definition Iterator5_f_a_a_a_f (ctx : ScMemoryContext) (src : ScAddr)
  (arcT tgtT attrT : ScType) (rel : ScAddr) : list Quint :=
  flat_map
    (fun t => map (fun m => mkQuint src (t1 t) (t2 t) (t1 m) rel)
                  (Iterator3_f_a_f ctx rel attrT (t1 t)))
    (Iterator3_f_a_a ctx src arcT tgtT).

(** [HelperCheckEdge(begin, end, arcType)] *)
Definition HelperCheckEdge (ctx : ScMemoryContext) (b e : ScAddr) (arcT : ScType) : bool :=
  match Iterator3_f_a_f ctx b arcT e with
  | [] => false
  | _ :: _ => true
  end.

End ScMemory.
Import ScMemory.

(** ** Effects: log lines, the file system, the fetch, exceptions *)

Module Effects.

(** What [SC_THROW_EXCEPTION] raises in the code read here. *)
Inductive ScException : Type :=
| ExceptionItemNotFound (msg : string)
| ExceptionAssert (msg : string).

(** What the code does to the outside world, in the order it does it. *)
Inductive Effect : Type :=
| LogError (msg : string)
| LogWarning (msg : string)
| LogDebug (msg : string)
| FsMkdirs (path : string)
| GitDownload (url path : string).

(** A computation: the effects performed, then an exception or a value. *)
Definition M (A : Type) : Type := (list Effect * (ScException + A))%type.

Definition ret {A : Type} (a : A) : M A := ([], inr a).

Definition bind {A B : Type} (m : M A) (f : A -> M B) : M B :=
  match m with
  | (tr, inl e) => (tr, inl e)
  | (tr, inr a) => let (tr', r) := f a in (tr ++ tr', r)
  end.

Definition throw {A : Type} (e : ScException) : M A := ([], inl e).
Definition emit (e : Effect) : M unit := ([e], inr tt).

Definition trace {A : Type} (m : M A) : list Effect := fst m.
Definition outcome {A : Type} (m : M A) : ScException + A := snd m.

Definition SC_LOG_ERROR (msg : string) : M unit := emit (LogError msg).
Definition SC_LOG_WARNING (msg : string) : M unit := emit (LogWarning msg).
Definition SC_LOG_DEBUG (msg : string) : M unit := emit (LogDebug msg).

End Effects.
Import Effects.

(** ** [std::string]: the operations the code uses *)

Module StdString.

(** What [std::string::substr] throws. *)
Inductive std_exception : Type :=
| out_of_range.

(** [s.rfind(c)]: the last position of the character [c]; [None] stands for
    [std::string::npos]. *)
Fixpoint rfind_char (s : string) (c : Ascii.ascii) : option nat :=
  match s with
  | EmptyString => None
  | String a r =>
      match rfind_char r c with
      | Some i => Some (S i)
      | None => if Ascii.eqb a c then Some 0 else None
      end
  end.

(** [s.rfind(needle)]: the last position where [needle] starts. *)
Fixpoint rfind (s needle : string) : option nat :=
  match s with
  | EmptyString => if String.prefix needle EmptyString then Some 0 else None
  | String a r =>
      match rfind r needle with
      | Some i => Some (S i)
      | None => if String.prefix needle s then Some 0 else None
      end
  end.

Fixpoint drop (pos : nat) (s : string) : string :=
  match pos, s with
  | O, _ => s
  | S p, String _ r => drop p r
  | S _, EmptyString => EmptyString
  end.

(** [s.substr(pos)]: the rest of [s] from [pos] on; [out_of_range] when
    [pos] is beyond the size of [s], as [npos] always is. *)
Definition substr (s : string) (pos : option nat) : std_exception + string :=
  match pos with
  | None => inl out_of_range
  | Some p => if String.length s <? p then inl out_of_range else inr (drop p s)
  end.

(** [pos != std::string::npos] *)
Definition found (pos : option nat) : bool :=
  match pos with
  | Some _ => true
  | None => false
  end.

End StdString.

Declare Scope sc_scope.
Delimit Scope sc_scope with sc.
Notation "x <- c ;; k" := (bind c (fun x => k))
  (at level 61, c at next level, right associativity) : sc_scope.
Notation "c ;;; k" := (bind c (fun _ => k))
  (at level 61, right associativity) : sc_scope.
Open Scope sc_scope.

(** ** Keynodes and the sc-machine helper library *)

(** [keynodes::ScComponentManagerKeynodes] and [CoreKeynodes::rrel_1]: global
    handles resolved when the module starts. *)
Record Keynodes : Type := mkKeynodes {
  concept_repository : ScAddr;
  concept_reusable_component_specification : ScAddr;
  concept_reusable_component : ScAddr;
  concept_github_url : ScAddr;
  concept_google_drive_url : ScAddr;
  nrel_component_address : ScAddr;
  nrel_component_dependencies : ScAddr;
  nrel_installation_method : ScAddr;
  nrel_installation_script : ScAddr;
  nrel_alternative_addresses : ScAddr;
  nrel_repository_address : ScAddr;
  rrel_1 : ScAddr
}.

(** [utils::IteratorUtils] and [utils::CommonUtils]: helpers of the
    sc-agents-common library the component manager calls; their code is not
    among the sources read here. *)
Module utils.

(** Modelled from the spec: [IteratorUtils::getAllWithType(context, set, type)]
    is missing; it yields the children of [set] (the elements a membership
    arc attaches to it) that have the type [type], in iteration order. *)
Definition getAllWithType (ctx : ScMemoryContext) (set : ScAddr) (scType : ScType)
  : list ScAddr :=
  map t2 (Iterator3_f_a_a ctx set ScType.EdgeAccessConstPosPerm scType).

(** Modelled from the spec: [IteratorUtils::getAnyFromSet(context, set)] is
    missing; it yields a member of [set] picked by the store's iteration
    order (the first one), the empty address when there is none. *)
Definition getAnyFromSet (ctx : ScMemoryContext) (set : ScAddr) : ScAddr :=
  match Iterator3_f_a_a ctx set ScType.EdgeAccessConstPosPerm ScType.Unknown with
  | t :: _ => t2 t
  | [] => Empty
  end.

(** Modelled from the spec:
    [IteratorUtils::getFirstFromSet(context, set, getStrictlyFirst)] is
    missing; it yields the member of [set] flagged as primary (marked with
    the role relation [rrel_1]), and when none is flagged any member unless
    [getStrictlyFirst]. *)
Definition getFirstFromSet (rrel_1 : ScAddr) (ctx : ScMemoryContext) (set : ScAddr)
  (getStrictlyFirst : bool) : ScAddr :=
  match Iterator5_f_a_a_a_f ctx set ScType.EdgeAccessConstPosPerm ScType.Unknown
          ScType.EdgeAccessConstPosPerm rrel_1 with
  | q :: _ => q2 q
  | [] => if getStrictlyFirst then Empty else getAnyFromSet ctx set
  end.

(** Modelled from the spec: [CommonUtils::isEmpty(context, set)] is missing;
    it tells whether [set] has no member. *)
Definition isEmpty (ctx : ScMemoryContext) (set : ScAddr) : bool :=
  match Iterator3_f_a_a ctx set ScType.EdgeAccessConstPosPerm ScType.Unknown with
  | [] => true
  | _ :: _ => false
  end.

End utils.

(** ** [componentUtils] (sc_component_utils.cpp) *)

Module componentUtils.
Section WithKeynodes.
Variable keynodes : Keynodes.

(** *** [SearchUtils] *)

Definition GetComponentAddress (ctx : ScMemoryContext) (componentAddr : ScAddr) : ScAddr :=
  match Iterator5_f_a_a_a_f ctx componentAddr ScType.EdgeDCommonConst ScType.LinkConst
          ScType.EdgeAccessConstPosPerm (nrel_component_address keynodes) with
  | q :: _ => q2 q
  | [] => Empty
  end.

(** The [while (it->Next())] loop of [GetComponentDependencies], over the
    tuples the iterator yields. *)
Fixpoint collect_dependencies (ctx : ScMemoryContext) (sets : list Quint)
  (componentDependencies : list ScAddr) : list ScAddr :=
  match sets with
  | [] => componentDependencies
  | q :: rest =>
      let componentDependenciesSet := q2 q in
      let componentCurrentDependencies :=
        utils.getAllWithType ctx componentDependenciesSet ScType.NodeConst in
      collect_dependencies ctx rest (componentDependencies ++ componentCurrentDependencies)
  end.

Definition GetComponentDependencies (ctx : ScMemoryContext) (componentAddr : ScAddr)
  : list ScAddr :=
  collect_dependencies ctx
    (Iterator5_f_a_a_a_f ctx componentAddr ScType.EdgeDCommonConst ScType.NodeConst
       ScType.EdgeAccessConstPosPerm (nrel_component_dependencies keynodes))
    [].

Definition GetComponentInstallationMethod (ctx : ScMemoryContext) (componentAddr : ScAddr)
  : ScAddr :=
  match Iterator5_f_a_a_a_f ctx componentAddr ScType.EdgeDCommonConst ScType.NodeConst
          ScType.EdgeAccessConstPosPerm (nrel_installation_method keynodes) with
  | q :: _ => q2 q
  | [] => Empty
  end.

(** Lines 132-137 of [GetSpecificationAddress]: the address node chosen from
    the set of alternative addresses. *)
Definition chooseSpecificationAddress (ctx : ScMemoryContext)
  (alternativeAddressesSet : ScAddr) : ScAddr :=
  let specificationAddressAddr :=
    utils.getFirstFromSet (rrel_1 keynodes) ctx alternativeAddressesSet true in
  if negb (IsValid specificationAddressAddr)
  then utils.getAnyFromSet ctx alternativeAddressesSet
  else specificationAddressAddr.

Definition GetSpecificationAddress (ctx : ScMemoryContext)
  (componentSpecificationAddr : ScAddr) : M (list ScAddr) :=
  match Iterator5_f_a_a_a_f ctx componentSpecificationAddr ScType.EdgeDCommonConst
          ScType.NodeTuple ScType.EdgeAccessConstPosPerm
          (nrel_alternative_addresses keynodes) with
  | [] => throw (ExceptionItemNotFound "No alternative addresses set found")
  | q :: _ =>
      let alternativeAddressesSet := q2 q in
      if utils.isEmpty ctx alternativeAddressesSet
      then throw (ExceptionAssert "Alternative addresses set is empty")
      else
        let specificationAddressAddr :=
          chooseSpecificationAddress ctx alternativeAddressesSet in
        let specificationAddressLinks :=
          utils.getAllWithType ctx specificationAddressAddr ScType.LinkConst in
        match specificationAddressLinks with
        | [] => throw (ExceptionAssert "No sc-links connected with address node")
        | _ :: _ => ret specificationAddressLinks
        end
  end.

Definition GetRepositoryAddress (ctx : ScMemoryContext) (repositoryAddr : ScAddr)
  : M ScAddr :=
  match Iterator5_f_a_a_a_f ctx repositoryAddr ScType.EdgeDCommonConst ScType.NodeConst
          ScType.EdgeAccessConstPosPerm (nrel_repository_address keynodes) with
  | [] => throw (ExceptionItemNotFound "No address found for repository")
  | q :: _ =>
      let repositoryAddressAddr := q2 q in
      match Iterator3_f_a_a ctx repositoryAddressAddr ScType.EdgeAccessConstPosPerm
              ScType.LinkConst with
      | [] => throw (ExceptionItemNotFound "No links for repository address found")
      | t :: _ => ret (t2 t)
      end
  end.

(** *** [InstallUtils] *)

Definition IsReusable (ctx : ScMemoryContext) (componentAddr : ScAddr) : M bool :=
  match Iterator3_f_a_f ctx (concept_reusable_component keynodes)
          ScType.EdgeAccessConstPosPerm componentAddr with
  | [] => SC_LOG_WARNING "Component is not a reusable component." ;;; ret false
  | _ :: _ => ret true
  end.

Definition string_empty (s : string) : bool :=
  match s with
  | EmptyString => true
  | String _ _ => false
  end.

(** The [while (it->Next())] loop of [GetInstallScripts]. *)
Fixpoint collect_scripts (ctx : ScMemoryContext) (its : list Quint)
  (scripts : list string) : M (list string) :=
  match its with
  | [] => ret scripts
  | q :: rest =>
      let scriptAddrs := q2 q in
      let script := GetLinkContent_into ctx scriptAddrs "" in
      let scripts' := if negb (string_empty script) then scripts ++ [script] else scripts in
      SC_LOG_DEBUG ("ScComponentManager: Install script found:" ++ script)%string ;;;
      collect_scripts ctx rest scripts'
  end.

Definition GetInstallScripts (ctx : ScMemoryContext) (componentAddr : ScAddr)
  : M (list string) :=
  collect_scripts ctx
    (Iterator5_f_a_a_a_f ctx componentAddr ScType.EdgeDCommonConst ScType.LinkConst
       ScType.EdgeAccessConstPosPerm (nrel_installation_script keynodes))
    [].

Definition IsComponentInstallationMethodValid (ctx : ScMemoryContext)
  (componentAddr : ScAddr) : M bool :=
  let componentInstallationMethod := GetComponentInstallationMethod ctx componentAddr in
  if negb (IsValid componentInstallationMethod)
  then SC_LOG_WARNING "Component installation method isn't valid." ;;; ret false
  else ret true.

Definition GetComponentAddressStr (ctx : ScMemoryContext) (componentAddr : ScAddr)
  : string :=
  let componentAddressAddr := GetComponentAddress ctx componentAddr in
  GetLinkContent_into ctx componentAddressAddr "".

Definition GetComponentDirName (ctx : ScMemoryContext) (componentAddr : ScAddr)
  (specificationsPath : string) : StdString.std_exception + string :=
  let componentAddressContent := GetComponentAddressStr ctx componentAddr in
  let componentDirNameIndex := StdString.rfind_char componentAddressContent "/"%char in
  match StdString.substr componentAddressContent componentDirNameIndex with
  | inl e => inl e
  | inr tail => inr (specificationsPath ++ tail)%string
  end.

End WithKeynodes.
End componentUtils.

(** *** [LoadUtils] *)

Module LoadUtils.

(** The loop over [readdir]: [loaded] collects the paths handed to
    [ScsLoader::loadScsFile], in order. *)
Fixpoint read_entries (dirPath : string) (entries : list string)
  (loaded : list string) (result : bool) : list string * bool :=
  match entries with
  | [] => (loaded, result)
  | filename :: rest =>
      match StdString.rfind filename ".scs" with
      | Some _ =>
          read_entries dirPath rest (loaded ++ [(dirPath ++ "/" ++ filename)%string]) true
      | None => read_entries dirPath rest loaded result
      end
  end.

(** [LoadScsFilesInDir(context, dirPath)].  [opendir] is the file system:
    the names [readdir] yields for a directory that can be opened, [None]
    for one that cannot.  The value is the list of the files loaded and the
    result of the function. *)
Definition LoadScsFilesInDir (opendir : string -> option (list string))
  (dirPath : string) : list string * bool :=
  match opendir dirPath with
  | Some entries => read_entries dirPath entries [] false
  | None => ([], false)
  end.

End LoadUtils.

(** ** [DownloaderHandler] (downloader_handler.cpp) *)

Module DownloaderHandler.

(** [SpecificationConstants] and [GitHubConstants]: string constants of the
    project's headers, taken as parameters. *)
Record Constants : Type := mkConstants {
  DIRECTORY_DELIMETR : string;
  SPECIFICATION_FILENAME : string;
  SVN_TRUNK : string
}.

(** The handler object: its download directory; and the part of the world it
    acts on: whether [sc_fs_mkdirs] succeeds on a path. *)
Record Handler : Type := mkHandler {
  m_downloadDir : string;
  fs_mkdirs_ok : string -> bool
}.

Section WithKeynodes.
Variable keynodes : Keynodes.
Variable constants : Constants.

Definition sc_fs_mkdirs (h : Handler) (path : string) : M bool :=
  emit (FsMkdirs path) ;;; ret (fs_mkdirs_ok h path).

(** Modelled from the spec: [DownloaderGit::Download(url, path)] is missing;
    it fetches [url] into [path], and by the contract of a downloader it
    raises nothing; the code discards whatever it returns. *)
Definition DownloaderGit_Download (url path : string) : M unit :=
  emit (GitDownload url path).

(** The [for] loop shared by [getDownloadableClass] and [getUrlLinkClass]:
    the first class of the vector with a membership arc to [addr]. *)
Fixpoint first_class_of (ctx : ScMemoryContext) (classes : list ScAddr) (addr : ScAddr)
  : ScAddr :=
  match classes with
  | [] => Empty
  | currentClass :: rest =>
      if HelperCheckEdge ctx currentClass addr ScType.EdgeAccessConstPosPerm
      then currentClass
      else first_class_of ctx rest addr
  end.

Definition getDownloadableClass (ctx : ScMemoryContext) (nodeAddr : ScAddr) : ScAddr :=
  let downloadableClasses :=
    [concept_repository keynodes; concept_reusable_component_specification keynodes] in
  first_class_of ctx downloadableClasses nodeAddr.

Definition getUrlLinkClass (ctx : ScMemoryContext) (linkAddr : ScAddr) : ScAddr :=
  let downloadableUrls :=
    [concept_github_url keynodes; concept_google_drive_url keynodes] in
  first_class_of ctx downloadableUrls linkAddr.

(** The [for] loop of [Download] over the address links; [url] is declared
    before the loop and keeps its value when a link has no content. *)
Fixpoint download_links (ctx : ScMemoryContext) (nodeAddressLinkAddrs : list ScAddr)
  (specificationPostfix downloadPath url : string) : M unit :=
  match nodeAddressLinkAddrs with
  | [] => ret tt
  | currentAddressLinkAddr :: rest =>
      let linkAddressClassAddr := getUrlLinkClass ctx currentAddressLinkAddr in
      if linkAddressClassAddr =? concept_github_url keynodes
      then
        let url' := GetLinkContent_into ctx currentAddressLinkAddr url in
        let pathPostfix :=
          (SVN_TRUNK constants ++ DIRECTORY_DELIMETR constants ++ specificationPostfix)%string in
        DownloaderGit_Download (url' ++ pathPostfix)%string downloadPath ;;;
        download_links ctx rest specificationPostfix downloadPath url'
      else download_links ctx rest specificationPostfix downloadPath url
  end.

Definition downloadPath_of (h : Handler) (ctx : ScMemoryContext) (nodeAddr : ScAddr)
  : string :=
  let nodeSystIdtf := HelperGetSystemIdtf ctx nodeAddr in
  (m_downloadDir h ++ DIRECTORY_DELIMETR constants ++ nodeSystIdtf)%string.

(** Lines 147-170 of [Download]: the address links of the component, found
    by the query of its class, then the loop over them.  [st] holds the
    locals [nodeAddressLinkAddrs] and [specificationPostfix] after the first
    [if]. *)
Definition download_addresses (ctx : ScMemoryContext) (nodeClassAddr nodeAddr : ScAddr)
  (downloadPath : string) : M unit :=
  st <- (if nodeClassAddr =? concept_reusable_component_specification keynodes
         then
           links <- componentUtils.GetSpecificationAddress keynodes ctx nodeAddr ;;
           ret (links, SPECIFICATION_FILENAME constants)
         else ret ([], "")) ;;
  nodeAddressLinkAddrs <-
    (if nodeClassAddr =? concept_repository keynodes
     then
       link <- componentUtils.GetRepositoryAddress keynodes ctx nodeAddr ;;
       ret [link]
     else ret (fst st)) ;;
  download_links ctx nodeAddressLinkAddrs (snd st) downloadPath "".

Definition Download (h : Handler) (ctx : ScMemoryContext) (nodeAddr : ScAddr) : M unit :=
  let nodeClassAddr := getDownloadableClass ctx nodeAddr in
  if negb (IsValid nodeClassAddr)
  then SC_LOG_ERROR "Can't download. Downloadable class not found"
  else
    let downloadPath := downloadPath_of h ctx nodeAddr in
    created <- sc_fs_mkdirs h downloadPath ;;
    if negb created
    then SC_LOG_ERROR "Can't download. Can't create folder."
    else download_addresses ctx nodeClassAddr nodeAddr downloadPath.

End WithKeynodes.
End DownloaderHandler.

(** ** A concrete knowledge base, used to run the code *)

Module Kb.

Definition keynodes : Keynodes :=
  {| concept_repository := 1;
     concept_reusable_component_specification := 2;
     concept_reusable_component := 3;
     concept_github_url := 4;
     concept_google_drive_url := 5;
     nrel_component_address := 6;
     nrel_component_dependencies := 7;
     nrel_installation_method := 8;
     nrel_installation_script := 9;
     nrel_alternative_addresses := 10;
     nrel_repository_address := 11;
     rrel_1 := 12 |}.

Definition constants : DownloaderHandler.Constants :=
  {| DownloaderHandler.DIRECTORY_DELIMETR := "/";
     DownloaderHandler.SPECIFICATION_FILENAME := "specification.scs";
     DownloaderHandler.SVN_TRUNK := "/trunk" |}.

Definition node : ScElement := ScNode ScType.NodeConst.
Definition tuple : ScElement := ScNode (N.lor ScType.NodeConst ScType.NodeTuple).
Definition link (c : string) : ScElement := ScLink ScType.LinkConst c.
Definition member_arc (s t : ScAddr) : ScElement := ScArc ScType.EdgeAccessConstPosPerm s t.
Definition common_arc (s t : ScAddr) : ScElement := ScArc ScType.EdgeDCommonConst s t.

(** Addresses 1..12: the keynodes. *)
Definition base : list ScElement := repeat node 12.

Definition kb (extra : list ScElement) (idtfs : list (ScAddr * string)) : ScMemoryContext :=
  mkContext (base ++ extra) idtfs.

(** A handler whose directory creation always succeeds, and one whose
    directory creation always fails. *)
Definition handler_ok : DownloaderHandler.Handler :=
  DownloaderHandler.mkHandler "/tmp/kb" (fun _ => true).
Definition handler_ro : DownloaderHandler.Handler :=
  DownloaderHandler.mkHandler "/tmp/kb" (fun _ => false).

(** 13: a repository, 14: its address node, 15/16: the pair and its mark,
    17: a link with no hosting class, 18: its attachment, 19: class arc. *)
Definition repo_plain_link : ScMemoryContext :=
  kb [ node; node; common_arc 13 14; member_arc 11 15;
       link "https://example.org/kb.tar"; member_arc 14 17; member_arc 1 13 ]
     [(13, "repo")].

(** The same repository, its link 17 put in the Google Drive class. *)
Definition repo_drive_link : ScMemoryContext :=
  kb [ node; node; common_arc 13 14; member_arc 11 15;
       link "https://drive.google.com/kb"; member_arc 14 17; member_arc 1 13;
       member_arc 5 17 ]
     [(13, "repo")].

(** 13: a repository with no address relation. *)
Definition repo_no_address : ScMemoryContext :=
  kb [ node; member_arc 1 13 ] [(13, "repo")].

(** 13: a repository, 14: its address node, with no link attached. *)
Definition repo_no_link : ScMemoryContext :=
  kb [ node; node; common_arc 13 14; member_arc 11 15; member_arc 1 13 ]
     [(13, "repo")].

(** 13: a specification with no set of alternative addresses. *)
Definition spec_no_alternatives : ScMemoryContext :=
  kb [ node; member_arc 2 13 ] [(13, "spec")].

(** 13: a specification, 14: its set of alternative addresses, empty. *)
Definition spec_empty_set : ScMemoryContext :=
  kb [ node; tuple; common_arc 13 14; member_arc 10 15; member_arc 2 13 ]
     [(13, "spec")].

(** As above, the set holding the address node 17, which has no link. *)
Definition spec_no_links : ScMemoryContext :=
  kb [ node; tuple; common_arc 13 14; member_arc 10 15;
       node; member_arc 14 17; member_arc 2 13 ]
     [(13, "spec")].

(** 13: a specification, 14: its set of alternative addresses with the
    members 17 and 18, the second one marked [rrel_1] (arc 21 on arc 20);
    22 and 24: their links, 24 being a GitHub link. *)
Definition spec_two_addresses : ScMemoryContext :=
  kb [ node; tuple; common_arc 13 14; member_arc 10 15;
       node; node; member_arc 14 17; member_arc 14 18; member_arc 12 20;
       link "https://example.org/a"; member_arc 17 22;
       link "https://github.com/ostis/b"; member_arc 18 24; member_arc 4 24;
       member_arc 2 13 ]
     [(13, "spec")].

(** 13: a component with the dependency sets 14 = {17, 18} and 19 = {18, 22}. *)
Definition two_dependency_sets : ScMemoryContext :=
  kb [ node; node; common_arc 13 14; member_arc 7 15;
       node; node; node; common_arc 13 19; member_arc 7 20;
       node; member_arc 14 17; member_arc 14 18; member_arc 19 18; member_arc 19 22 ]
     [].

(** 13: a component carrying the same install script on two links (14, 17),
    and a third link (20) with no content. *)
Definition duplicated_scripts : ScMemoryContext :=
  kb [ node;
       link "make install"; common_arc 13 14; member_arc 9 15;
       link "make install"; common_arc 13 17; member_arc 9 18;
       link ""; common_arc 13 20; member_arc 9 21 ]
     [].

(** 13: a component that is (or is not) reusable and has (or has not) an
    installation method. *)
Definition install_kb (reusable method : bool) : ScMemoryContext :=
  kb ([ node; node ]
      ++ (if method then [ common_arc 13 14; member_arc 8 15 ] else [ node; node ])
      ++ (if reusable then [ member_arc 3 13 ] else []))
     [].

(** 13: a component whose address (link 14) is a URL. *)
Definition component_with_url : ScMemoryContext :=
  kb [ node; link "https://github.com/ostis/b"; common_arc 13 14; member_arc 6 15 ] [].

(** 13: a component whose address (link 14) has no slash in it. *)
Definition component_with_plain_address : ScMemoryContext :=
  kb [ node; link "local-kb"; common_arc 13 14; member_arc 6 15 ] [].

(** 13: both a repository and a specification, with the address of a
    repository (link 17, a GitHub link) and no alternative addresses. *)
Definition repo_and_spec : ScMemoryContext :=
  kb [ node; node; common_arc 13 14; member_arc 11 15;
       link "https://github.com/ostis/kb"; member_arc 14 17; member_arc 1 13;
       member_arc 2 13; member_arc 4 17 ]
     [(13, "both")].

(** 13: a specification whose chosen address node (17) carries three links:
    22 (GitHub), 24 (Google Drive) and 26 (GitHub). *)
Definition spec_three_links : ScMemoryContext :=
  kb [ node; tuple; common_arc 13 14; member_arc 10 15;
       node; member_arc 14 17; member_arc 2 13; node; node;
       link "https://github.com/ostis/a"; member_arc 17 22;
       link "https://drive.google.com/a"; member_arc 17 24;
       link "https://github.com/mirror/a"; member_arc 17 26;
       member_arc 4 22; member_arc 5 24; member_arc 4 26 ]
     [(13, "spec")].

(** A file system with one directory that can be opened. *)
Definition opendir (path : string) : option (list string) :=
  if String.eqb path "/tmp/kb/spec"
  then Some [ "."; ".."; "specification.scs"; "README.md"; "old.scs.bak" ]
  else None.

End Kb.

(** ** Reading the graph: the relations the queries are about

    These are stated on single look-ups in the store, not on iterators. *)

Module Graph.

(** [e] is an arc from [src] to [tgt] whose type has all bits of [arcT]. *)
Definition is_arc (ctx : ScMemoryContext) (e : ScAddr) (arcT : ScType) (src tgt : ScAddr)
  : Prop :=
  exists t, GetElement ctx e = Some (ScArc t src tgt) /\ type_matches t arcT = true.

(** [a] is an element of the store whose type has all bits of [T]. *)
Definition has_type (ctx : ScMemoryContext) (a : ScAddr) (T : ScType) : Prop :=
  element_matches ctx a T = true.

(** [x] belongs to the class (or set) [cls]: a membership arc joins them. *)
Definition in_class (ctx : ScMemoryContext) (cls x : ScAddr) : Prop :=
  exists e, is_arc ctx e ScType.EdgeAccessConstPosPerm cls x.

(** [x], of type [T], is a member of [set]. *)
Definition member (ctx : ScMemoryContext) (set : ScAddr) (T : ScType) (x : ScAddr) : Prop :=
  has_type ctx x T /\ in_class ctx set x.

(** The pair ([src], [tgt]) belongs to the relation [rel], [tgt] of type [T]. *)
Definition related (ctx : ScMemoryContext) (rel src : ScAddr) (T : ScType) (tgt : ScAddr)
  : Prop :=
  has_type ctx tgt T /\
  exists e m, is_arc ctx e ScType.EdgeDCommonConst src tgt /\
              is_arc ctx m ScType.EdgeAccessConstPosPerm rel e.

(** [x] is a member of [set] under the role [rrel] (the primary member when
    [rrel] is [rrel_1]). *)
Definition member_with_role (ctx : ScMemoryContext) (rrel set x : ScAddr) : Prop :=
  has_type ctx x ScType.Unknown /\
  exists e m, is_arc ctx e ScType.EdgeAccessConstPosPerm set x /\
              is_arc ctx m ScType.EdgeAccessConstPosPerm rrel e.

(** *** The relations of the component manager's knowledge base *)

Section Named.
Variable keynodes : Keynodes.
Variable ctx : ScMemoryContext.

(** [s] is a set of alternative addresses of the specification [c]. *)
Definition alternative_addresses_of (c s : ScAddr) : Prop :=
  related ctx (nrel_alternative_addresses keynodes) c ScType.NodeTuple s.

(** [a] is an address node of the repository [r]. *)
Definition repository_address_of (r a : ScAddr) : Prop :=
  related ctx (nrel_repository_address keynodes) r ScType.NodeConst a.

(** [s] is a set of dependencies of the component [c]. *)
Definition dependency_set_of (c s : ScAddr) : Prop :=
  related ctx (nrel_component_dependencies keynodes) c ScType.NodeConst s.

(** [m] is an installation method of the component [c]. *)
Definition installation_method_of (c m : ScAddr) : Prop :=
  related ctx (nrel_installation_method keynodes) c ScType.NodeConst m.

(** [x] is any member of the set [s]. *)
Definition set_member (s x : ScAddr) : Prop := member ctx s ScType.Unknown x.

(** [x] is a member of [s] flagged as the primary one. *)
Definition primary_member (s x : ScAddr) : Prop :=
  member_with_role ctx (rrel_1 keynodes) s x.

(** [l] is a literal link attached to the address node [a]. *)
Definition address_link_of (a l : ScAddr) : Prop := member ctx a ScType.LinkConst l.

(** [d] is a component listed in the set of dependencies [s]. *)
Definition dependency_in (s d : ScAddr) : Prop := member ctx s ScType.NodeConst d.

(** [l] is an address link of the component [c]. *)
Definition component_address_of (c l : ScAddr) : Prop :=
  related ctx (nrel_component_address keynodes) c ScType.LinkConst l.

End Named.

End Graph.
Import Graph.

(** ** Reading strings *)

Module Text.

(** [needle] occurs somewhere in [s]. *)
Definition occurs_in (needle s : string) : Prop :=
  exists pre post, s = (pre ++ needle ++ post)%string.

(** The character [c] does not occur in [s]. *)
Definition char_free (c : Ascii.ascii) (s : string) : Prop :=
  forall pre post, s <> (pre ++ String c post)%string.

End Text.
Import Text.

(** * Properties *)

(** ** The iterators enumerate exactly the matching arcs *)

Section IteratorFacts.

Lemma arcs_from_In (els : list ScElement) : forall (n : nat) (a : Arc),
  In a (arcs_from n els) <->
  exists i, arc_addr a = n + i /\
            nth_error els i = Some (ScArc (arc_type a) (arc_source a) (arc_target a)).
Proof.
  induction els as [|e els IH]; intros n a; simpl.
  - split; [tauto|]. intros [i [_ H]]. destruct i; discriminate.
  - assert (Htail : In a (arcs_from (S n) els) <->
              exists i, arc_addr a = n + S i /\
                nth_error els i = Some (ScArc (arc_type a) (arc_source a) (arc_target a))).
    { rewrite IH. split; intros [i [H1 H2]]; exists i; split; auto; lia. }
    assert (Hsplit : forall P : nat -> Prop,
              (exists i, P i) <-> P 0 \/ exists i, P (S i)).
    { intros P. split.
      - intros [[|i] H]; [left|right; exists i]; exact H.
      - intros [H|[i H]]; eauto. }
    rewrite (Hsplit (fun i => arc_addr a = n + i /\ nth_error (e :: els) i = _)).
    simpl. rewrite <- Htail.
    destruct e as [t|t c|t s d]; simpl.
    + split; [tauto|]. intros [[_ H]|H]; [discriminate|exact H].
    + split; [tauto|]. intros [[_ H]|H]; [discriminate|exact H].
    + split.
      * intros [H|H]; [left|right; exact H]. subst a. simpl. split; [lia|reflexivity].
      * intros [[H1 H2]|H]; [left|right; exact H].
        destruct a as [aa at_ as_ ad]; simpl in *.
        injection H2 as -> -> ->. f_equal. lia.
Qed.

Lemma arcs_In (ctx : ScMemoryContext) (a : Arc) :
  In a (arcs ctx) <->
  GetElement ctx (arc_addr a) = Some (ScArc (arc_type a) (arc_source a) (arc_target a)).
Proof.
  unfold arcs. rewrite arcs_from_In. split.
  - intros [i [H1 H2]]. rewrite H1. exact H2.
  - unfold GetElement. destruct (arc_addr a) as [|i] eqn:E; [discriminate|].
    intros H. exists i. split; [reflexivity|exact H].
Qed.

Lemma Iterator3_f_a_a_In ctx src arcT tgtT (t : Triple) :
  In t (Iterator3_f_a_a ctx src arcT tgtT) <->
  t0 t = src /\ is_arc ctx (t1 t) arcT src (t2 t) /\ has_type ctx (t2 t) tgtT.
Proof.
  unfold Iterator3_f_a_a. rewrite in_map_iff. split.
  - intros [a [<- Ha]]. apply filter_In in Ha. destruct Ha as [Ha Hc].
    apply arcs_In in Ha.
    apply andb_true_iff in Hc. destruct Hc as [Hc Hty].
    apply andb_true_iff in Hc. destruct Hc as [Hs Hm].
    apply Nat.eqb_eq in Hs. simpl. split; [reflexivity|]. split; [|exact Hty].
    exists (arc_type a). rewrite <- Hs. split; assumption.
  - intros [H0 [[ty [Hl Hm]] Hty]].
    exists (mkArc (t1 t) ty src (t2 t)). split.
    + destruct t; simpl in *. subst. reflexivity.
    + apply filter_In. split; [apply arcs_In; exact Hl|]. simpl.
      rewrite Nat.eqb_refl, Hm. exact Hty.
Qed.

Lemma Iterator3_f_a_f_In ctx src arcT tgt (t : Triple) :
  In t (Iterator3_f_a_f ctx src arcT tgt) <->
  t0 t = src /\ t2 t = tgt /\ is_arc ctx (t1 t) arcT src tgt.
Proof.
  unfold Iterator3_f_a_f. rewrite in_map_iff. split.
  - intros [a [<- Ha]]. apply filter_In in Ha. destruct Ha as [Ha Hc].
    apply arcs_In in Ha.
    apply andb_true_iff in Hc. destruct Hc as [Hc Ht].
    apply andb_true_iff in Hc. destruct Hc as [Hs Hm].
    apply Nat.eqb_eq in Hs, Ht. simpl. split; [reflexivity|]. split; [reflexivity|].
    exists (arc_type a). rewrite <- Hs, <- Ht. split; assumption.
  - intros [H0 [H2 [ty [Hl Hm]]]].
    exists (mkArc (t1 t) ty src tgt). split.
    + destruct t; simpl in *. subst. reflexivity.
    + apply filter_In. split; [apply arcs_In; exact Hl|]. simpl.
      rewrite !Nat.eqb_refl, Hm. reflexivity.
Qed.

Lemma Iterator5_f_a_a_a_f_In ctx src arcT tgtT attrT rel (q : Quint) :
  In q (Iterator5_f_a_a_a_f ctx src arcT tgtT attrT rel) <->
  q0 q = src /\ q4 q = rel /\
  is_arc ctx (q1 q) arcT src (q2 q) /\ has_type ctx (q2 q) tgtT /\
  is_arc ctx (q3 q) attrT rel (q1 q).
Proof.
  unfold Iterator5_f_a_a_a_f. rewrite in_flat_map. split.
  - intros [t [Ht Hq]]. apply Iterator3_f_a_a_In in Ht.
    apply in_map_iff in Hq. destruct Hq as [m [<- Hm]].
    apply Iterator3_f_a_f_In in Hm. simpl. tauto.
  - intros [H0 [H4 [He [Hty Hm]]]].
    exists (mkTriple src (q1 q) (q2 q)). split.
    + apply Iterator3_f_a_a_In. simpl. tauto.
    + apply in_map_iff. exists (mkTriple rel (q3 q) (q1 q)). split.
      * destruct q; simpl in *. subst. reflexivity.
      * apply Iterator3_f_a_f_In. simpl. tauto.
Qed.

End IteratorFacts.

(** ** The helper library and the relations of the graph *)

Section HelperFacts.

Lemma nil_iff_no_member {A : Type} (l : list A) : l = [] <-> forall x, ~ In x l.
Proof.
  destruct l as [|a l]; split; intros H; try reflexivity; try discriminate.
  - intros x Hx. exact Hx.
  - exfalso. apply (H a). left. reflexivity.
Qed.

Lemma related_iff ctx rel src T tgt :
  related ctx rel src T tgt <->
  In tgt (map q2 (Iterator5_f_a_a_a_f ctx src ScType.EdgeDCommonConst T
                    ScType.EdgeAccessConstPosPerm rel)).
Proof.
  rewrite in_map_iff. split.
  - intros [Hty [e [m [He Hm]]]]. exists (mkQuint src e tgt m rel). split; [reflexivity|].
    apply Iterator5_f_a_a_a_f_In. simpl. tauto.
  - intros [q [<- Hq]]. apply Iterator5_f_a_a_a_f_In in Hq.
    destruct Hq as [_ [_ [He [Hty Hm]]]]. split; [exact Hty|]. eauto.
Qed.

Lemma member_with_role_iff ctx rrel set x :
  member_with_role ctx rrel set x <->
  In x (map q2 (Iterator5_f_a_a_a_f ctx set ScType.EdgeAccessConstPosPerm ScType.Unknown
                  ScType.EdgeAccessConstPosPerm rrel)).
Proof.
  rewrite in_map_iff. split.
  - intros [Hty [e [m [He Hm]]]]. exists (mkQuint set e x m rrel). split; [reflexivity|].
    apply Iterator5_f_a_a_a_f_In. simpl. tauto.
  - intros [q [<- Hq]]. apply Iterator5_f_a_a_a_f_In in Hq.
    destruct Hq as [_ [_ [He [Hty Hm]]]]. split; [exact Hty|]. eauto.
Qed.

Lemma member_iff ctx set T x :
  member ctx set T x <-> In x (utils.getAllWithType ctx set T).
Proof.
  unfold utils.getAllWithType. rewrite in_map_iff. split.
  - intros [Hty [e He]]. exists (mkTriple set e x). split; [reflexivity|].
    apply Iterator3_f_a_a_In. simpl. tauto.
  - intros [t [<- Ht]]. apply Iterator3_f_a_a_In in Ht.
    destruct Ht as [_ [He Hty]]. split; [exact Hty|]. exists (t1 t). exact He.
Qed.

Lemma in_class_iff ctx cls x :
  in_class ctx cls x <-> HelperCheckEdge ctx cls x ScType.EdgeAccessConstPosPerm = true.
Proof.
  unfold HelperCheckEdge. split.
  - intros [e He].
    assert (H : In (mkTriple cls e x)
                  (Iterator3_f_a_f ctx cls ScType.EdgeAccessConstPosPerm x)).
    { apply Iterator3_f_a_f_In. simpl. tauto. }
    destruct (Iterator3_f_a_f ctx cls ScType.EdgeAccessConstPosPerm x);
      [destruct H|reflexivity].
  - destruct (Iterator3_f_a_f ctx cls ScType.EdgeAccessConstPosPerm x) as [|t l] eqn:E;
      [discriminate|]. intros _.
    assert (H : In t (Iterator3_f_a_f ctx cls ScType.EdgeAccessConstPosPerm x)).
    { rewrite E. left. reflexivity. }
    apply Iterator3_f_a_f_In in H. exists (t1 t). tauto.
Qed.

Lemma has_type_IsValid ctx a T : has_type ctx a T -> IsValid a = true.
Proof.
  unfold has_type, element_matches, GetElementType, GetElement.
  destruct a; [discriminate|reflexivity].
Qed.

Lemma isEmpty_iff ctx set :
  utils.isEmpty ctx set = true <-> forall x, ~ member ctx set ScType.Unknown x.
Proof.
  unfold utils.isEmpty. split.
  - destruct (Iterator3_f_a_a ctx set _ _) as [|t l] eqn:E; [|discriminate].
    intros _ x Hx. apply member_iff in Hx. unfold utils.getAllWithType in Hx.
    rewrite E in Hx. exact Hx.
  - intros H. destruct (Iterator3_f_a_a ctx set _ _) as [|t l] eqn:E; [reflexivity|].
    exfalso. apply (H (t2 t)). apply member_iff. unfold utils.getAllWithType.
    rewrite E. left. reflexivity.
Qed.

Lemma getAnyFromSet_member ctx set :
  (exists x, member ctx set ScType.Unknown x) ->
  member ctx set ScType.Unknown (utils.getAnyFromSet ctx set).
Proof.
  intros [x Hx]. apply member_iff in Hx. apply member_iff.
  unfold utils.getAnyFromSet, utils.getAllWithType in *.
  destruct (Iterator3_f_a_a ctx set _ _) as [|t l]; [destruct Hx|].
  left. reflexivity.
Qed.

Lemma member_with_role_member ctx rrel set x :
  member_with_role ctx rrel set x -> member ctx set ScType.Unknown x.
Proof.
  intros [Hty [e [m [He _]]]]. split; [exact Hty|]. exists e. exact He.
Qed.

(** The head of a non-empty enumeration is one of its members. *)
Lemma head_related ctx rel src T (q : Quint) (l : list Quint) :
  Iterator5_f_a_a_a_f ctx src ScType.EdgeDCommonConst T
    ScType.EdgeAccessConstPosPerm rel = q :: l ->
  related ctx rel src T (q2 q).
Proof.
  intros E. apply related_iff. rewrite E. left. reflexivity.
Qed.

Lemma no_related_nil ctx rel src T :
  (forall tgt, ~ related ctx rel src T tgt) ->
  Iterator5_f_a_a_a_f ctx src ScType.EdgeDCommonConst T
    ScType.EdgeAccessConstPosPerm rel = [].
Proof.
  intros H.
  destruct (Iterator5_f_a_a_a_f ctx src _ T _ rel) as [|q l] eqn:E; [reflexivity|].
  exfalso. exact (H _ (head_related _ _ _ _ _ _ E)).
Qed.

Lemma some_related_cons ctx rel src T :
  (exists tgt, related ctx rel src T tgt) ->
  exists q l, Iterator5_f_a_a_a_f ctx src ScType.EdgeDCommonConst T
                ScType.EdgeAccessConstPosPerm rel = q :: l.
Proof.
  intros [tgt H]. apply related_iff in H.
  destruct (Iterator5_f_a_a_a_f ctx src _ T _ rel) as [|q l]; [destruct H|eauto].
Qed.

End HelperFacts.

(** ** Address lookup *)

Section AddressLookup.
Variable keynodes : Keynodes.
Variable ctx : ScMemoryContext.

Lemma chooseSpecificationAddress_member (s : ScAddr) :
  (exists x, set_member ctx s x) ->
  set_member ctx s (componentUtils.chooseSpecificationAddress keynodes ctx s).
Proof.
  intros Hne. unfold componentUtils.chooseSpecificationAddress, utils.getFirstFromSet.
  destruct (Iterator5_f_a_a_a_f ctx s _ _ _ (rrel_1 keynodes)) as [|q l] eqn:E.
  - simpl. apply getAnyFromSet_member. exact Hne.
  - assert (Hq : member_with_role ctx (rrel_1 keynodes) s (q2 q)).
    { apply member_with_role_iff. rewrite E. left. reflexivity. }
    apply member_with_role_member in Hq.
    destruct Hq as [Hty Hc]. rewrite (has_type_IsValid _ _ _ Hty). simpl.
    split; assumption.
Qed.

Lemma chooseSpecificationAddress_primary (s : ScAddr) :
  (exists x, primary_member keynodes ctx s x) ->
  primary_member keynodes ctx s (componentUtils.chooseSpecificationAddress keynodes ctx s).
Proof.
  intros [x Hx]. unfold primary_member in *.
  unfold componentUtils.chooseSpecificationAddress, utils.getFirstFromSet.
  apply member_with_role_iff in Hx.
  destruct (Iterator5_f_a_a_a_f ctx s _ _ _ (rrel_1 keynodes)) as [|q l] eqn:E;
    [destruct Hx|].
  assert (Hq : member_with_role ctx (rrel_1 keynodes) s (q2 q)).
  { apply member_with_role_iff. rewrite E. left. reflexivity. }
  destruct Hq as [Hty Hq]. rewrite (has_type_IsValid _ _ _ Hty). simpl.
  split; assumption.
Qed.

(** C2. [GetSpecificationAddress] raises "No alternative addresses set found"
    when the specification has no set of alternative addresses, "Alternative
    addresses set is empty" when the set has no member, and "No sc-links
    connected with address node" when the address node chosen from the set has
    no link attached; each time an exception and no list of links comes back. *)
Theorem GetSpecificationAddress_failures (c : ScAddr) :
  ((forall s, ~ alternative_addresses_of keynodes ctx c s) ->
   componentUtils.GetSpecificationAddress keynodes ctx c
   = ([], inl (ExceptionItemNotFound "No alternative addresses set found")))
  /\
  ((exists s, alternative_addresses_of keynodes ctx c s) ->
   (forall s, alternative_addresses_of keynodes ctx c s ->
              forall x, ~ set_member ctx s x) ->
   componentUtils.GetSpecificationAddress keynodes ctx c
   = ([], inl (ExceptionAssert "Alternative addresses set is empty")))
  /\
  ((exists s, alternative_addresses_of keynodes ctx c s) ->
   (forall s, alternative_addresses_of keynodes ctx c s ->
              (exists x, set_member ctx s x) /\
              forall l, ~ address_link_of ctx
                            (componentUtils.chooseSpecificationAddress keynodes ctx s) l) ->
   componentUtils.GetSpecificationAddress keynodes ctx c
   = ([], inl (ExceptionAssert "No sc-links connected with address node"))).
Proof.
  unfold alternative_addresses_of, componentUtils.GetSpecificationAddress.
  split; [|split].
  - intros Hno. rewrite (no_related_nil _ _ _ _ Hno). reflexivity.
  - intros Hex Hempty. destruct (some_related_cons _ _ _ _ Hex) as [q [l E]].
    rewrite E. pose proof (head_related _ _ _ _ _ _ E) as Hq.
    assert (Hem : utils.isEmpty ctx (q2 q) = true).
    { apply isEmpty_iff. exact (Hempty _ Hq). }
    rewrite Hem. reflexivity.
  - intros Hex Hlinks. destruct (some_related_cons _ _ _ _ Hex) as [q [l E]].
    rewrite E. pose proof (head_related _ _ _ _ _ _ E) as Hq.
    destruct (Hlinks _ Hq) as [[x Hx] Hnl].
    destruct (utils.isEmpty ctx (q2 q)) eqn:Hem.
    + exfalso. exact (proj1 (isEmpty_iff _ _) Hem x Hx).
    + assert (Hnil : utils.getAllWithType ctx
                (componentUtils.chooseSpecificationAddress keynodes ctx (q2 q))
                ScType.LinkConst = []).
      { apply nil_iff_no_member. intros y Hy. apply member_iff in Hy.
        exact (Hnl y Hy). }
      rewrite Hnil. reflexivity.
Qed.

(** C3. [GetRepositoryAddress] raises "No address found for repository" when
    the repository has no address relation, "No links for repository address
    found" when the address node has no link attached, and otherwise returns
    a link attached to an address node of the repository. *)
Theorem GetRepositoryAddress_spec (r : ScAddr) :
  ((forall a, ~ repository_address_of keynodes ctx r a) ->
   componentUtils.GetRepositoryAddress keynodes ctx r
   = ([], inl (ExceptionItemNotFound "No address found for repository")))
  /\
  ((exists a, repository_address_of keynodes ctx r a) ->
   (forall a, repository_address_of keynodes ctx r a ->
              forall l, ~ address_link_of ctx a l) ->
   componentUtils.GetRepositoryAddress keynodes ctx r
   = ([], inl (ExceptionItemNotFound "No links for repository address found")))
  /\
  ((exists a, repository_address_of keynodes ctx r a) ->
   (forall a, repository_address_of keynodes ctx r a ->
              exists l, address_link_of ctx a l) ->
   exists a l, repository_address_of keynodes ctx r a /\ address_link_of ctx a l /\
               componentUtils.GetRepositoryAddress keynodes ctx r = ([], inr l)).
Proof.
  unfold repository_address_of, address_link_of, componentUtils.GetRepositoryAddress.
  split; [|split].
  - intros Hno. rewrite (no_related_nil _ _ _ _ Hno). reflexivity.
  - intros Hex Hnl. destruct (some_related_cons _ _ _ _ Hex) as [q [l E]].
    rewrite E. pose proof (head_related _ _ _ _ _ _ E) as Hq.
    destruct (Iterator3_f_a_a ctx (q2 q) _ _) as [|t ts] eqn:E3; [reflexivity|].
    exfalso. apply (Hnl _ Hq (t2 t)). apply member_iff.
    unfold utils.getAllWithType. rewrite E3. left. reflexivity.
  - intros Hex Hl. destruct (some_related_cons _ _ _ _ Hex) as [q [l E]].
    rewrite E. pose proof (head_related _ _ _ _ _ _ E) as Hq.
    destruct (Hl _ Hq) as [x Hx]. apply member_iff in Hx.
    unfold utils.getAllWithType in Hx.
    destruct (Iterator3_f_a_a ctx (q2 q) _ _) as [|t ts] eqn:E3; [destruct Hx|].
    exists (q2 q), (t2 t). split; [exact Hq|]. split; [|reflexivity].
    apply member_iff. unfold utils.getAllWithType. rewrite E3. left. reflexivity.
Qed.

End AddressLookup.

(** Evaluating the relations of a concrete knowledge base: a hypothesis or a
    goal about the graph is turned into membership in an enumeration, which
    computes. *)
Ltac kb_unfold :=
  unfold alternative_addresses_of, repository_address_of, dependency_set_of,
         installation_method_of, set_member, primary_member, address_link_of,
         dependency_in in *.

Ltac kb_in H :=
  kb_unfold;
  first [ apply related_iff in H | apply member_iff in H
        | apply member_with_role_iff in H ];
  vm_compute in H;
  repeat (destruct H as [H|H]; [try subst|]); try contradiction.

Ltac kb_holds :=
  kb_unfold;
  first [ apply related_iff | apply member_iff | apply member_with_role_iff ];
  vm_compute; tauto.

Lemma GetSpecificationAddress_failures_witness :
  ((forall s, ~ alternative_addresses_of Kb.keynodes Kb.spec_no_alternatives 13 s) /\
   componentUtils.GetSpecificationAddress Kb.keynodes Kb.spec_no_alternatives 13
   = ([], inl (ExceptionItemNotFound "No alternative addresses set found")))
  /\
  ((exists s, alternative_addresses_of Kb.keynodes Kb.spec_empty_set 13 s) /\
   (forall s, alternative_addresses_of Kb.keynodes Kb.spec_empty_set 13 s ->
              forall x, ~ set_member Kb.spec_empty_set s x) /\
   componentUtils.GetSpecificationAddress Kb.keynodes Kb.spec_empty_set 13
   = ([], inl (ExceptionAssert "Alternative addresses set is empty")))
  /\
  ((exists s, alternative_addresses_of Kb.keynodes Kb.spec_no_links 13 s) /\
   (forall s, alternative_addresses_of Kb.keynodes Kb.spec_no_links 13 s ->
              (exists x, set_member Kb.spec_no_links s x) /\
              forall l, ~ address_link_of Kb.spec_no_links
                (componentUtils.chooseSpecificationAddress Kb.keynodes Kb.spec_no_links s) l) /\
   componentUtils.GetSpecificationAddress Kb.keynodes Kb.spec_no_links 13
   = ([], inl (ExceptionAssert "No sc-links connected with address node"))).
Proof.
  assert (H1 : forall s, ~ alternative_addresses_of Kb.keynodes Kb.spec_no_alternatives 13 s).
  { intros s H. kb_in H. }
  assert (H2 : exists s, alternative_addresses_of Kb.keynodes Kb.spec_empty_set 13 s).
  { exists 14. kb_holds. }
  assert (H3 : forall s, alternative_addresses_of Kb.keynodes Kb.spec_empty_set 13 s ->
                         forall x, ~ set_member Kb.spec_empty_set s x).
  { intros s H x Hx. kb_in H. kb_in Hx. }
  assert (H4 : exists s, alternative_addresses_of Kb.keynodes Kb.spec_no_links 13 s).
  { exists 14. kb_holds. }
  assert (H5 : forall s, alternative_addresses_of Kb.keynodes Kb.spec_no_links 13 s ->
              (exists x, set_member Kb.spec_no_links s x) /\
              forall l, ~ address_link_of Kb.spec_no_links
                (componentUtils.chooseSpecificationAddress Kb.keynodes Kb.spec_no_links s) l).
  { intros s H. kb_in H. split.
    - exists 17. kb_holds.
    - intros l Hl. kb_in Hl. }
  split; [|split].
  - split; [exact H1|].
    exact (proj1 (GetSpecificationAddress_failures Kb.keynodes Kb.spec_no_alternatives 13) H1).
  - split; [exact H2|]. split; [exact H3|].
    exact (proj1 (proj2 (GetSpecificationAddress_failures Kb.keynodes Kb.spec_empty_set 13))
             H2 H3).
  - split; [exact H4|]. split; [exact H5|].
    exact (proj2 (proj2 (GetSpecificationAddress_failures Kb.keynodes Kb.spec_no_links 13))
             H4 H5).
Defined.

Lemma GetRepositoryAddress_spec_witness :
  ((forall a, ~ repository_address_of Kb.keynodes Kb.repo_no_address 13 a) /\
   componentUtils.GetRepositoryAddress Kb.keynodes Kb.repo_no_address 13
   = ([], inl (ExceptionItemNotFound "No address found for repository")))
  /\
  ((exists a, repository_address_of Kb.keynodes Kb.repo_no_link 13 a) /\
   (forall a, repository_address_of Kb.keynodes Kb.repo_no_link 13 a ->
              forall l, ~ address_link_of Kb.repo_no_link a l) /\
   componentUtils.GetRepositoryAddress Kb.keynodes Kb.repo_no_link 13
   = ([], inl (ExceptionItemNotFound "No links for repository address found")))
  /\
  ((exists a, repository_address_of Kb.keynodes Kb.repo_plain_link 13 a) /\
   (forall a, repository_address_of Kb.keynodes Kb.repo_plain_link 13 a ->
              exists l, address_link_of Kb.repo_plain_link a l) /\
   exists a l, repository_address_of Kb.keynodes Kb.repo_plain_link 13 a /\
               address_link_of Kb.repo_plain_link a l /\
               componentUtils.GetRepositoryAddress Kb.keynodes Kb.repo_plain_link 13
               = ([], inr l)).
Proof.
  assert (H1 : forall a, ~ repository_address_of Kb.keynodes Kb.repo_no_address 13 a).
  { intros a H. kb_in H. }
  assert (H2 : exists a, repository_address_of Kb.keynodes Kb.repo_no_link 13 a).
  { exists 14. kb_holds. }
  assert (H3 : forall a, repository_address_of Kb.keynodes Kb.repo_no_link 13 a ->
                         forall l, ~ address_link_of Kb.repo_no_link a l).
  { intros a H l Hl. kb_in H. kb_in Hl. }
  assert (H4 : exists a, repository_address_of Kb.keynodes Kb.repo_plain_link 13 a).
  { exists 14. kb_holds. }
  assert (H5 : forall a, repository_address_of Kb.keynodes Kb.repo_plain_link 13 a ->
                         exists l, address_link_of Kb.repo_plain_link a l).
  { intros a H. kb_in H. exists 17. kb_holds. }
  split; [|split].
  - split; [exact H1|].
    exact (proj1 (GetRepositoryAddress_spec Kb.keynodes Kb.repo_no_address 13) H1).
  - split; [exact H2|]. split; [exact H3|].
    exact (proj1 (proj2 (GetRepositoryAddress_spec Kb.keynodes Kb.repo_no_link 13)) H2 H3).
  - split; [exact H4|]. split; [exact H5|].
    exact (proj2 (proj2 (GetRepositoryAddress_spec Kb.keynodes Kb.repo_plain_link 13)) H4 H5).
Defined.

(** ** Choosing among alternative addresses *)

Section Selection.
Variable keynodes : Keynodes.

(** The queries read the elements of the store and nothing else. *)
Lemma chooseSpecificationAddress_snapshot (ctx ctx' : ScMemoryContext) (s : ScAddr) :
  elements ctx' = elements ctx ->
  componentUtils.chooseSpecificationAddress keynodes ctx' s
  = componentUtils.chooseSpecificationAddress keynodes ctx s.
Proof.
  destruct ctx as [els ids], ctx' as [els' ids']. simpl. intros ->. reflexivity.
Qed.

(** C6. From a non-empty set of alternative addresses the code chooses a
    member of the set; when some member is flagged primary ([rrel_1]) the
    chosen one is flagged primary; and the choice is a function of the
    elements of the graph snapshot, so it is the same on every call. *)
Theorem chooseSpecificationAddress_selection (ctx : ScMemoryContext) (s : ScAddr) :
  (exists x, set_member ctx s x) ->
  set_member ctx s (componentUtils.chooseSpecificationAddress keynodes ctx s)
  /\
  ((exists x, primary_member keynodes ctx s x) ->
   primary_member keynodes ctx s (componentUtils.chooseSpecificationAddress keynodes ctx s))
  /\
  (forall ctx', elements ctx' = elements ctx ->
     componentUtils.chooseSpecificationAddress keynodes ctx' s
     = componentUtils.chooseSpecificationAddress keynodes ctx s).
Proof.
  intros Hne. split; [|split].
  - apply chooseSpecificationAddress_member. exact Hne.
  - apply chooseSpecificationAddress_primary.
  - intros ctx'. apply chooseSpecificationAddress_snapshot.
Qed.

(** The links [GetSpecificationAddress] returns are those of the chosen
    address node of the set it found. *)
Lemma GetSpecificationAddress_returns (ctx : ScMemoryContext) (c : ScAddr)
  (links : list ScAddr) :
  outcome (componentUtils.GetSpecificationAddress keynodes ctx c) = inr links ->
  exists s, alternative_addresses_of keynodes ctx c s /\
            links = utils.getAllWithType ctx
                      (componentUtils.chooseSpecificationAddress keynodes ctx s)
                      ScType.LinkConst.
Proof.
  unfold componentUtils.GetSpecificationAddress, alternative_addresses_of.
  destruct (Iterator5_f_a_a_a_f ctx c _ _ _ (nrel_alternative_addresses keynodes))
    as [|q l] eqn:E; [discriminate|].
  destruct (utils.isEmpty ctx (q2 q)); [discriminate|].
  destruct (utils.getAllWithType ctx _ ScType.LinkConst) as [|x xs] eqn:El;
    [discriminate|].
  simpl. intros H. injection H as <-. exists (q2 q). split.
  - exact (head_related _ _ _ _ _ _ E).
  - symmetry. exact El.
Qed.

End Selection.

Lemma chooseSpecificationAddress_selection_witness :
  (exists x, set_member Kb.spec_two_addresses 14 x) /\
  componentUtils.chooseSpecificationAddress Kb.keynodes Kb.spec_two_addresses 14 = 18 /\
  set_member Kb.spec_two_addresses 14 18 /\
  primary_member Kb.keynodes Kb.spec_two_addresses 14 18.
Proof.
  assert (H : exists x, set_member Kb.spec_two_addresses 14 x).
  { exists 17. kb_holds. }
  pose proof (chooseSpecificationAddress_selection Kb.keynodes Kb.spec_two_addresses 14 H)
    as [Hm [Hp _]].
  split; [exact H|]. split; [reflexivity|]. split; [exact Hm|].
  apply Hp. exists 18. kb_holds.
Defined.

(** ** Dependencies *)

Section Dependencies.
Variable keynodes : Keynodes.
Variable ctx : ScMemoryContext.

Lemma collect_dependencies_flat_map (sets : list Quint) : forall acc : list ScAddr,
  componentUtils.collect_dependencies ctx sets acc
  = acc ++ flat_map (fun q => utils.getAllWithType ctx (q2 q) ScType.NodeConst) sets.
Proof.
  induction sets as [|q sets IH]; intros acc; simpl.
  - symmetry. apply app_nil_r.
  - rewrite IH. symmetry. apply app_assoc.
Qed.

(** C7. [GetComponentDependencies] returns the members of all the dependency
    sets of the component, taken together, and the empty list when the
    component has no dependency set. *)
Theorem GetComponentDependencies_union (c : ScAddr) :
  (forall d, In d (componentUtils.GetComponentDependencies keynodes ctx c) <->
             exists s, dependency_set_of keynodes ctx c s /\ dependency_in ctx s d)
  /\
  ((forall s, ~ dependency_set_of keynodes ctx c s) ->
   componentUtils.GetComponentDependencies keynodes ctx c = []).
Proof.
  unfold componentUtils.GetComponentDependencies, dependency_set_of, dependency_in.
  split.
  - intros d. rewrite collect_dependencies_flat_map. simpl. rewrite in_flat_map. split.
    + intros [q [Hq Hd]]. exists (q2 q). split.
      * apply related_iff. apply in_map. exact Hq.
      * apply member_iff. exact Hd.
    + intros [s [Hs Hd]]. apply related_iff in Hs. apply in_map_iff in Hs.
      destruct Hs as [q [<- Hq]]. exists q. split; [exact Hq|].
      apply member_iff. exact Hd.
  - intros Hno. rewrite (no_related_nil _ _ _ _ Hno). reflexivity.
Qed.

End Dependencies.

Lemma GetComponentDependencies_union_witness :
  (forall s, ~ dependency_set_of Kb.keynodes Kb.repo_plain_link 13 s) /\
  componentUtils.GetComponentDependencies Kb.keynodes Kb.repo_plain_link 13 = [].
Proof.
  assert (H : forall s, ~ dependency_set_of Kb.keynodes Kb.repo_plain_link 13 s).
  { intros s Hs. kb_in Hs. }
  split; [exact H|].
  exact (proj2 (GetComponentDependencies_union Kb.keynodes Kb.repo_plain_link 13) H).
Defined.

(** Two dependency sets sharing a member: the shared member is listed twice. *)
Example GetComponentDependencies_two_sets :
  componentUtils.GetComponentDependencies Kb.keynodes Kb.two_dependency_sets 13
  = [17; 18; 18; 22].
Proof. reflexivity. Qed.

(** ** Install checks and install scripts *)

Section Install.
Variable keynodes : Keynodes.
Variable ctx : ScMemoryContext.

Lemma IsReusable_cases (c : ScAddr) :
  (in_class ctx (concept_reusable_component keynodes) c ->
   componentUtils.IsReusable keynodes ctx c = ([], inr true))
  /\
  (~ in_class ctx (concept_reusable_component keynodes) c ->
   componentUtils.IsReusable keynodes ctx c
   = ([LogWarning "Component is not a reusable component."], inr false)).
Proof.
  unfold componentUtils.IsReusable.
  pose proof (in_class_iff ctx (concept_reusable_component keynodes) c) as H.
  unfold HelperCheckEdge in H.
  destruct (Iterator3_f_a_f ctx _ _ c) as [|t l]; split; intros Hc.
  - apply H in Hc. discriminate.
  - reflexivity.
  - reflexivity.
  - exfalso. apply Hc. apply H. reflexivity.
Qed.

Lemma GetComponentInstallationMethod_valid (c : ScAddr) :
  IsValid (componentUtils.GetComponentInstallationMethod keynodes ctx c) = true <->
  exists m, installation_method_of keynodes ctx c m.
Proof.
  unfold componentUtils.GetComponentInstallationMethod, installation_method_of.
  destruct (Iterator5_f_a_a_a_f ctx c _ _ _ (nrel_installation_method keynodes))
    as [|q l] eqn:E.
  - split; [discriminate|]. intros [m Hm]. apply related_iff in Hm.
    rewrite E in Hm. destruct Hm.
  - pose proof (head_related _ _ _ _ _ _ E) as Hq. split.
    + intros _. exists (q2 q). exact Hq.
    + intros _. destruct Hq as [Hty _]. exact (has_type_IsValid _ _ _ Hty).
Qed.

Lemma IsComponentInstallationMethodValid_cases (c : ScAddr) :
  ((exists m, installation_method_of keynodes ctx c m) ->
   componentUtils.IsComponentInstallationMethodValid keynodes ctx c = ([], inr true))
  /\
  (~ (exists m, installation_method_of keynodes ctx c m) ->
   componentUtils.IsComponentInstallationMethodValid keynodes ctx c
   = ([LogWarning "Component installation method isn't valid."], inr false)).
Proof.
  unfold componentUtils.IsComponentInstallationMethodValid.
  pose proof (GetComponentInstallationMethod_valid c) as H.
  destruct (IsValid (componentUtils.GetComponentInstallationMethod keynodes ctx c));
    split; intros Hm; simpl.
  - reflexivity.
  - exfalso. apply Hm. apply H. reflexivity.
  - apply H in Hm. discriminate.
  - reflexivity.
Qed.

(** The scripts found, before the empty ones are dropped. *)
Lemma collect_scripts_spec (its : list Quint) : forall acc : list string,
  componentUtils.collect_scripts ctx its acc
  = (map (fun q => LogDebug ("ScComponentManager: Install script found:"
                             ++ GetLinkContent_into ctx (q2 q) "")%string) its,
     inr (acc ++ filter (fun s => negb (componentUtils.string_empty s))
                        (map (fun q => GetLinkContent_into ctx (q2 q) "") its))).
Proof.
  induction its as [|q its IH]; intros acc; simpl.
  - rewrite app_nil_r. reflexivity.
  - rewrite IH. unfold bind, SC_LOG_DEBUG, emit. simpl.
    destruct (componentUtils.string_empty (GetLinkContent_into ctx (q2 q) "")); simpl.
    + reflexivity.
    + rewrite <- app_assoc. reflexivity.
Qed.

(** C10. [GetInstallScripts] always returns a list, none of whose strings is
    empty: it is the contents of the script links, the empty ones left out,
    and nothing but debug lines is logged on the way. *)
Theorem GetInstallScripts_nonempty (c : ScAddr) :
  exists scripts,
    outcome (componentUtils.GetInstallScripts keynodes ctx c) = inr scripts /\
    (forall s, In s scripts -> s <> "") /\
    scripts = filter (fun s => negb (componentUtils.string_empty s))
                (map (fun q => GetLinkContent_into ctx (q2 q) "")
                   (Iterator5_f_a_a_a_f ctx c ScType.EdgeDCommonConst ScType.LinkConst
                      ScType.EdgeAccessConstPosPerm (nrel_installation_script keynodes))) /\
    (forall e, In e (trace (componentUtils.GetInstallScripts keynodes ctx c)) ->
               exists msg, e = LogDebug msg).
Proof.
  unfold componentUtils.GetInstallScripts. rewrite collect_scripts_spec. simpl.
  eexists. split; [reflexivity|]. split; [|split; [reflexivity|]].
  - intros s Hs. apply filter_In in Hs. destruct Hs as [_ Hs].
    intros ->. discriminate.
  - intros e He. apply in_map_iff in He. destruct He as [q [<- _]]. eauto.
Qed.

End Install.

(** C8. The two install checks: [IsReusable] answers true exactly for the
    members of the class of reusable components and logs a warning when it
    answers false; [IsComponentInstallationMethodValid] answers true exactly
    when the component has an installation method and logs a warning when it
    answers false; and every combination of the two answers occurs. *)
Theorem install_checks_independent :
  (forall keynodes ctx c,
     (in_class ctx (concept_reusable_component keynodes) c ->
      componentUtils.IsReusable keynodes ctx c = ([], inr true)) /\
     (~ in_class ctx (concept_reusable_component keynodes) c ->
      componentUtils.IsReusable keynodes ctx c
      = ([LogWarning "Component is not a reusable component."], inr false)))
  /\
  (forall keynodes ctx c,
     ((exists m, installation_method_of keynodes ctx c m) ->
      componentUtils.IsComponentInstallationMethodValid keynodes ctx c = ([], inr true)) /\
     (~ (exists m, installation_method_of keynodes ctx c m) ->
      componentUtils.IsComponentInstallationMethodValid keynodes ctx c
      = ([LogWarning "Component installation method isn't valid."], inr false)))
  /\
  (forall reusable method : bool,
     outcome (componentUtils.IsReusable Kb.keynodes (Kb.install_kb reusable method) 13)
     = inr reusable /\
     outcome (componentUtils.IsComponentInstallationMethodValid Kb.keynodes
                (Kb.install_kb reusable method) 13)
     = inr method).
Proof.
  split; [|split].
  - intros keynodes ctx c. apply IsReusable_cases.
  - intros keynodes ctx c. apply IsComponentInstallationMethodValid_cases.
  - intros [|] [|]; split; reflexivity.
Qed.

Lemma install_checks_independent_witness :
  in_class (Kb.install_kb true false) (concept_reusable_component Kb.keynodes) 13 /\
  componentUtils.IsReusable Kb.keynodes (Kb.install_kb true false) 13 = ([], inr true) /\
  ~ (exists m, installation_method_of Kb.keynodes (Kb.install_kb true false) 13 m) /\
  componentUtils.IsComponentInstallationMethodValid Kb.keynodes (Kb.install_kb true false) 13
  = ([LogWarning "Component installation method isn't valid."], inr false).
Proof.
  assert (H1 : in_class (Kb.install_kb true false) (concept_reusable_component Kb.keynodes) 13).
  { apply in_class_iff. reflexivity. }
  assert (H2 : ~ (exists m, installation_method_of Kb.keynodes (Kb.install_kb true false) 13 m)).
  { intros [m Hm]. kb_in Hm. }
  destruct install_checks_independent as [Hr [Hm _]].
  split; [exact H1|]. split; [exact (proj1 (Hr _ _ _) H1)|].
  split; [exact H2|]. exact (proj2 (Hm _ _ _) H2).
Defined.

(** C9 (the code keeps duplicates). A component whose install script is
    recorded on two links gets the script twice: [GetInstallScripts] removes
    empty strings only. *)
Theorem GetInstallScripts_keeps_duplicates :
  componentUtils.GetInstallScripts Kb.keynodes Kb.duplicated_scripts 13
  = ([LogDebug "ScComponentManager: Install script found:make install";
      LogDebug "ScComponentManager: Install script found:make install";
      LogDebug "ScComponentManager: Install script found:"],
     inr ["make install"; "make install"])
  /\ ~ NoDup ["make install"; "make install"].
Proof.
  split; [reflexivity|].
  intros H. inversion H as [|x l Hnotin _]. apply Hnotin. left. reflexivity.
Qed.

(** ** The download handler *)

Section Download.
Variable keynodes : Keynodes.
Variable constants : DownloaderHandler.Constants.

Lemma first_class_of_none ctx (classes : list ScAddr) (addr : ScAddr) :
  (forall cls, In cls classes -> ~ in_class ctx cls addr) ->
  DownloaderHandler.first_class_of ctx classes addr = Empty.
Proof.
  induction classes as [|cls classes IH]; intros H; simpl; [reflexivity|].
  destruct (HelperCheckEdge ctx cls addr ScType.EdgeAccessConstPosPerm) eqn:E.
  - exfalso. apply (H cls); [left; reflexivity|]. apply in_class_iff. exact E.
  - apply IH. intros c Hc. apply H. right. exact Hc.
Qed.

(** C5. A component that belongs neither to the class of repositories nor to
    the class of reusable component specifications: [Download] logs
    "Downloadable class not found" and returns; no directory is created and
    nothing is fetched. *)
Theorem Download_class_not_found (h : DownloaderHandler.Handler)
  (ctx : ScMemoryContext) (nodeAddr : ScAddr) :
  ~ in_class ctx (concept_repository keynodes) nodeAddr ->
  ~ in_class ctx (concept_reusable_component_specification keynodes) nodeAddr ->
  DownloaderHandler.Download keynodes constants h ctx nodeAddr
  = ([LogError "Can't download. Downloadable class not found"], inr tt).
Proof.
  intros Hr Hs. unfold DownloaderHandler.Download, DownloaderHandler.getDownloadableClass.
  rewrite first_class_of_none; [reflexivity|].
  intros cls [<-|[<-|[]]]; assumption.
Qed.

(** The loop over the links does nothing but fetch into [downloadPath]. *)
Lemma download_links_trace ctx (links : list ScAddr) (post path : string) :
  forall url : string,
    outcome (DownloaderHandler.download_links keynodes constants ctx links post path url)
    = inr tt /\
    forall e,
      In e (trace (DownloaderHandler.download_links keynodes constants ctx links post path url)) ->
      exists u, e = GitDownload u path.
Proof.
  induction links as [|l links IH]; intros url; simpl.
  - split; [reflexivity|]. intros e [].
  - destruct (DownloaderHandler.getUrlLinkClass keynodes ctx l =? concept_github_url keynodes).
    + unfold DownloaderHandler.DownloaderGit_Download, emit, bind.
      destruct (IH (GetLinkContent_into ctx l url)) as [Ho Ht].
      destruct (DownloaderHandler.download_links keynodes constants ctx links post path
                  (GetLinkContent_into ctx l url)) as [tr r].
      simpl in *. split; [exact Ho|].
      intros e [<-|He]; [eauto|apply Ht; exact He].
    + apply IH.
Qed.

Lemma GetSpecificationAddress_trace ctx c :
  trace (componentUtils.GetSpecificationAddress keynodes ctx c) = [].
Proof.
  unfold componentUtils.GetSpecificationAddress.
  destruct (Iterator5_f_a_a_a_f ctx c _ _ _ _); [reflexivity|].
  destruct (utils.isEmpty ctx _); [reflexivity|].
  destruct (utils.getAllWithType ctx _ _); reflexivity.
Qed.

Lemma GetRepositoryAddress_trace ctx r :
  trace (componentUtils.GetRepositoryAddress keynodes ctx r) = [].
Proof.
  unfold componentUtils.GetRepositoryAddress.
  destruct (Iterator5_f_a_a_a_f ctx r _ _ _ _); [reflexivity|].
  destruct (Iterator3_f_a_a ctx _ _ _); reflexivity.
Qed.

Lemma bind_trace_nil {A B : Type} (m : M A) (f : A -> M B) :
  trace m = [] ->
  (exists e, bind m f = ([], inl e)) \/ (exists a, m = ([], inr a) /\ bind m f = f a).
Proof.
  destruct m as [tr [e|a]]; simpl; intros ->.
  - left. exists e. reflexivity.
  - right. exists a. split; [reflexivity|]. destruct (f a). reflexivity.
Qed.

(** What [Download] does once the directory exists: find the links, then
    fetch.  Nothing is logged and no directory is made. *)
Lemma download_addresses_trace ctx (nodeClassAddr nodeAddr : ScAddr) (path : string) :
  forall e,
    In e (trace (DownloaderHandler.download_addresses keynodes constants ctx
                   nodeClassAddr nodeAddr path)) ->
    exists u, e = GitDownload u path.
Proof.
  intros e. unfold DownloaderHandler.download_addresses.
  set (k2 := fun st : list ScAddr * string => bind _ _).
  assert (Hk2 : forall st, In e (trace (k2 st)) -> exists u, e = GitDownload u path).
  { intros st. unfold k2.
    destruct (nodeClassAddr =? concept_repository keynodes).
    - destruct (bind_trace_nil (componentUtils.GetRepositoryAddress keynodes ctx nodeAddr)
                  (fun link => ret [link]) (GetRepositoryAddress_trace ctx nodeAddr))
        as [[x Hx]|[a [Ha Hx]]]; rewrite Hx.
      + simpl. intros [].
      + unfold ret, bind.
        destruct (DownloaderHandler.download_links keynodes constants ctx [a] (snd st) path "")
          as [tr r] eqn:E.
        simpl. intros He.
        apply (proj2 (download_links_trace ctx [a] (snd st) path "")).
        rewrite E. exact He.
    - unfold ret, bind.
      destruct (DownloaderHandler.download_links keynodes constants ctx (fst st) (snd st) path "")
        as [tr r] eqn:E.
      simpl. intros He.
      apply (proj2 (download_links_trace ctx (fst st) (snd st) path "")).
      rewrite E. exact He. }
  destruct (nodeClassAddr =? concept_reusable_component_specification keynodes).
  - destruct (bind_trace_nil (componentUtils.GetSpecificationAddress keynodes ctx nodeAddr)
                (fun links => ret (links, DownloaderHandler.SPECIFICATION_FILENAME constants))
                (GetSpecificationAddress_trace ctx nodeAddr))
      as [[x Hx]|[a [Ha Hx]]]; rewrite Hx.
    + simpl. intros [].
    + unfold ret at 1. unfold bind at 1.
      destruct (k2 (a, DownloaderHandler.SPECIFICATION_FILENAME constants)) as [tr r] eqn:E.
      simpl. intros He. apply (Hk2 (a, DownloaderHandler.SPECIFICATION_FILENAME constants)).
      rewrite E. exact He.
  - unfold ret at 1. unfold bind at 1.
    destruct (k2 ([], "")) as [tr r] eqn:E.
    simpl. intros He. apply (Hk2 ([], "")). rewrite E. exact He.
Qed.

(** C4. For a component of a downloadable class, [Download] first asks for
    the directory [m_downloadDir ++ DIRECTORY_DELIMETR ++ identifier] and
    everything it fetches goes there; when the directory cannot be made it
    logs "Can't create folder." and returns with nothing fetched. *)
Theorem Download_directory (h : DownloaderHandler.Handler) (ctx : ScMemoryContext)
  (nodeAddr : ScAddr) :
  IsValid (DownloaderHandler.getDownloadableClass keynodes ctx nodeAddr) = true ->
  let downloadPath :=
    (DownloaderHandler.m_downloadDir h
     ++ DownloaderHandler.DIRECTORY_DELIMETR constants
     ++ HelperGetSystemIdtf ctx nodeAddr)%string in
  (exists rest,
     trace (DownloaderHandler.Download keynodes constants h ctx nodeAddr)
     = FsMkdirs downloadPath :: rest /\
     (forall p, ~ In (FsMkdirs p) rest) /\
     (forall u p, In (GitDownload u p) rest -> p = downloadPath))
  /\
  (DownloaderHandler.fs_mkdirs_ok h downloadPath = false ->
   DownloaderHandler.Download keynodes constants h ctx nodeAddr
   = ([FsMkdirs downloadPath; LogError "Can't download. Can't create folder."], inr tt)).
Proof.
  intros Hvalid downloadPath. unfold DownloaderHandler.Download.
  rewrite Hvalid. simpl negb. cbv iota.
  change (DownloaderHandler.downloadPath_of constants h ctx nodeAddr) with downloadPath.
  unfold DownloaderHandler.sc_fs_mkdirs, emit, ret. unfold bind at 2.
  simpl app. unfold bind at 1.
  destruct (DownloaderHandler.fs_mkdirs_ok h downloadPath) eqn:Hfs; simpl negb; cbv iota.
  - split; [|discriminate].
    pose proof (download_addresses_trace ctx
                  (DownloaderHandler.getDownloadableClass keynodes ctx nodeAddr)
                  nodeAddr downloadPath) as Htail.
    destruct (DownloaderHandler.download_addresses keynodes constants ctx _ nodeAddr downloadPath)
      as [tr r].
    simpl in *. exists tr. split; [reflexivity|]. split.
    + intros p Hp. destruct (Htail _ Hp) as [u Hu]. discriminate.
    + intros u p Hp. destruct (Htail _ Hp) as [u' Hu]. injection Hu as _ ->. reflexivity.
  - split; [|intros _; reflexivity].
    simpl. eexists. split; [reflexivity|]. split.
    + intros p [Hp|[]]. discriminate.
    + intros u p [Hp|[]]. discriminate.
Qed.

End Download.

Lemma Download_class_not_found_witness :
  ~ in_class Kb.repo_plain_link (concept_repository Kb.keynodes) 14 /\
  ~ in_class Kb.repo_plain_link (concept_reusable_component_specification Kb.keynodes) 14 /\
  DownloaderHandler.Download Kb.keynodes Kb.constants Kb.handler_ok Kb.repo_plain_link 14
  = ([LogError "Can't download. Downloadable class not found"], inr tt).
Proof.
  assert (H1 : ~ in_class Kb.repo_plain_link (concept_repository Kb.keynodes) 14).
  { intros H. apply in_class_iff in H. discriminate. }
  assert (H2 : ~ in_class Kb.repo_plain_link
                 (concept_reusable_component_specification Kb.keynodes) 14).
  { intros H. apply in_class_iff in H. discriminate. }
  split; [exact H1|]. split; [exact H2|].
  exact (Download_class_not_found Kb.keynodes Kb.constants Kb.handler_ok
           Kb.repo_plain_link 14 H1 H2).
Defined.

Lemma Download_directory_witness :
  IsValid (DownloaderHandler.getDownloadableClass Kb.keynodes Kb.repo_plain_link 13) = true /\
  DownloaderHandler.fs_mkdirs_ok Kb.handler_ro "/tmp/kb/repo" = false /\
  DownloaderHandler.Download Kb.keynodes Kb.constants Kb.handler_ro Kb.repo_plain_link 13
  = ([FsMkdirs "/tmp/kb/repo"; LogError "Can't download. Can't create folder."], inr tt).
Proof.
  split; [reflexivity|]. split; [reflexivity|].
  apply (proj2 (Download_directory Kb.keynodes Kb.constants Kb.handler_ro
                  Kb.repo_plain_link 13 eq_refl)).
  reflexivity.
Defined.

(** C1 (the code passes over the link). The only address link of the
    repository 13 belongs to none of the hosting classes: [getUrlLinkClass]
    answers the empty address for it, and [Download], which never looks at
    that answer but to compare it with the GitHub class, makes the directory
    and returns normally, with no error logged and no exception raised.  The
    empty answer of [getDownloadableClass] is reported a few lines above;
    this one is not. *)
Lemma Download_unsupported_link_silent :
  componentUtils.GetRepositoryAddress Kb.keynodes Kb.repo_plain_link 13 = ([], inr 17) /\
  DownloaderHandler.getUrlLinkClass Kb.keynodes Kb.repo_plain_link 17 = Empty /\
  DownloaderHandler.Download Kb.keynodes Kb.constants Kb.handler_ok Kb.repo_plain_link 13
  = ([FsMkdirs "/tmp/kb/repo"], inr tt) /\
  ~ (exists e,
       outcome (DownloaderHandler.Download Kb.keynodes Kb.constants Kb.handler_ok
                  Kb.repo_plain_link 13) = inl e) /\
  ~ (exists msg,
       In (LogError msg)
          (trace (DownloaderHandler.Download Kb.keynodes Kb.constants Kb.handler_ok
                    Kb.repo_plain_link 13))).
Proof.
  split; [reflexivity|]. split; [reflexivity|]. split; [reflexivity|]. split.
  - intros [e He]. vm_compute in He. discriminate.
  - intros [msg Hm]. vm_compute in Hm. destruct Hm as [Hm|[]]. discriminate.
Qed.

(** A Google Drive link, a known hosting class, is passed over as well. *)
Example Download_drive_link_skipped :
  DownloaderHandler.getUrlLinkClass Kb.keynodes Kb.repo_drive_link 17
  = concept_google_drive_url Kb.keynodes /\
  DownloaderHandler.Download Kb.keynodes Kb.constants Kb.handler_ok Kb.repo_drive_link 13
  = ([FsMkdirs "/tmp/kb/repo"], inr tt).
Proof. split; reflexivity. Qed.

(** A GitHub link of a specification is fetched from its [trunk]. *)
Example Download_github_specification :
  DownloaderHandler.Download Kb.keynodes Kb.constants Kb.handler_ok Kb.spec_two_addresses 13
  = ([FsMkdirs "/tmp/kb/spec";
      GitDownload "https://github.com/ostis/b/trunk/specification.scs" "/tmp/kb/spec"],
     inr tt).
Proof. reflexivity. Qed.

(** ** Strings: [rfind] and [substr] *)

Section StringFacts.

Lemma prefix_iff (n : string) : forall s : string,
  String.prefix n s = true <-> exists post, s = (n ++ post)%string.
Proof.
  induction n as [|a n IH]; intros s.
  - split; [intros _; exists s; reflexivity|]. intros _. destruct s; reflexivity.
  - destruct s as [|b s]; simpl.
    + split; [discriminate|]. intros [post H]. discriminate.
    + destruct (ascii_dec a b) as [->|Hab].
      * rewrite IH. split; intros [post H]; exists post.
        -- rewrite H. reflexivity.
        -- injection H as H. exact H.
      * split; [discriminate|]. intros [post H]. injection H as H1 _.
        exfalso. apply Hab. symmetry. exact H1.
Qed.

Lemma occurs_in_cons (n : string) (a : ascii) (r : string) :
  occurs_in n (String a r) <-> String.prefix n (String a r) = true \/ occurs_in n r.
Proof.
  unfold occurs_in. split.
  - intros [[|b pre] [post H]].
    + left. apply prefix_iff. exists post. exact H.
    + right. injection H as _ H. exists pre, post. exact H.
  - intros [H|[pre [post H]]].
    + apply prefix_iff in H. destruct H as [post H]. exists EmptyString, post. exact H.
    + exists (String a pre), post. simpl. rewrite H. reflexivity.
Qed.

Lemma rfind_found (s n : string) :
  StdString.found (StdString.rfind s n) = true <-> occurs_in n s.
Proof.
  induction s as [|a r IH].
  - destruct n as [|b n]; simpl.
    + split; [intros _|reflexivity]. exists EmptyString, EmptyString. reflexivity.
    + split; [discriminate|]. intros [[|a pre] [post H]]; discriminate.
  - rewrite occurs_in_cons. cbn [StdString.rfind].
    destruct (StdString.rfind r n) as [i|]; cbn [StdString.found] in *.
    + split; [intros _; right; apply IH; reflexivity|reflexivity].
    + destruct (String.prefix n (String a r)); cbn [StdString.found].
      * split; [intros _; left; reflexivity|reflexivity].
      * split; [discriminate|]. intros [H|H]; [discriminate|]. apply IH. exact H.
Qed.

Lemma rfind_char_None (s : string) (c : ascii) :
  StdString.rfind_char s c = None <-> char_free c s.
Proof.
  unfold char_free. induction s as [|a r IH]; simpl.
  - split; [|reflexivity]. intros _ [|b pre] post H; discriminate.
  - destruct (StdString.rfind_char r c) as [i|].
    + split; [discriminate|]. intros H. exfalso.
      assert (Hr : forall pre post, r <> (pre ++ String c post)%string).
      { intros pre post E. apply (H (String a pre) post). simpl. rewrite E. reflexivity. }
      apply IH in Hr. discriminate.
    + destruct (Ascii.eqb a c) eqn:E.
      * split; [discriminate|]. intros H. exfalso. apply Ascii.eqb_eq in E. subst a.
        apply (H EmptyString r). reflexivity.
      * split; [|reflexivity]. intros _ [|b pre] post H.
        -- injection H as H _. subst a. rewrite Ascii.eqb_refl in E. discriminate.
        -- injection H as _ H. exact (proj1 IH eq_refl pre post H).
Qed.

Lemma rfind_char_last (pre name : string) (c : ascii) :
  char_free c name ->
  StdString.rfind_char (pre ++ String c name) c = Some (String.length pre).
Proof.
  intros Hfree. apply rfind_char_None in Hfree.
  induction pre as [|a pre IH]; simpl.
  - rewrite Hfree, Ascii.eqb_refl. reflexivity.
  - rewrite IH. reflexivity.
Qed.

Lemma substr_at_split (pre rest : string) :
  StdString.substr (pre ++ rest) (Some (String.length pre)) = inr rest.
Proof.
  unfold StdString.substr.
  assert (Hlen : (String.length (pre ++ rest) <? String.length pre) = false).
  { apply Nat.ltb_ge. induction pre as [|a pre IH]; simpl; lia. }
  rewrite Hlen. clear Hlen. f_equal. induction pre as [|a pre IH]; simpl.
  - destruct rest; reflexivity.
  - exact IH.
Qed.

End StringFacts.

(** ** The directory name of a component *)

Section DirName.
Variable keynodes : Keynodes.
Variable ctx : ScMemoryContext.

(** [GetComponentDirName] on an address with a slash: the specifications
    path followed by the part of the address from its last slash on. *)
Theorem GetComponentDirName_last_segment (c : ScAddr) (specificationsPath pre name : string) :
  componentUtils.GetComponentAddressStr keynodes ctx c = (pre ++ "/" ++ name)%string ->
  char_free "/"%char name ->
  componentUtils.GetComponentDirName keynodes ctx c specificationsPath
  = inr (specificationsPath ++ "/" ++ name)%string.
Proof.
  intros Haddr Hfree. unfold componentUtils.GetComponentDirName. rewrite Haddr.
  change ("/" ++ name)%string with (String "/"%char name).
  rewrite (rfind_char_last pre name "/"%char Hfree), substr_at_split. reflexivity.
Qed.

(** [GetComponentDirName] on an address with no slash in it: [rfind] gives
    [npos] and [substr] throws [out_of_range]; no directory name comes back. *)
Theorem GetComponentDirName_no_slash (c : ScAddr) (specificationsPath : string) :
  char_free "/"%char (componentUtils.GetComponentAddressStr keynodes ctx c) ->
  componentUtils.GetComponentDirName keynodes ctx c specificationsPath
  = inl StdString.out_of_range.
Proof.
  intros Hfree. unfold componentUtils.GetComponentDirName.
  rewrite (proj2 (rfind_char_None _ _) Hfree). reflexivity.
Qed.

End DirName.

Lemma GetComponentDirName_last_segment_witness :
  componentUtils.GetComponentAddressStr Kb.keynodes Kb.component_with_url 13
  = ("https://github.com/ostis" ++ "/" ++ "b")%string /\
  char_free "/"%char "b" /\
  componentUtils.GetComponentDirName Kb.keynodes Kb.component_with_url 13 "specs"
  = inr "specs/b".
Proof.
  assert (H : char_free "/"%char "b") by (apply rfind_char_None; reflexivity).
  split; [reflexivity|]. split; [exact H|].
  exact (GetComponentDirName_last_segment Kb.keynodes Kb.component_with_url 13 "specs"
           "https://github.com/ostis" "b" eq_refl H).
Defined.

Lemma GetComponentDirName_no_slash_witness :
  char_free "/"%char
    (componentUtils.GetComponentAddressStr Kb.keynodes Kb.component_with_plain_address 13) /\
  componentUtils.GetComponentDirName Kb.keynodes Kb.component_with_plain_address 13 "specs"
  = inl StdString.out_of_range.
Proof.
  assert (H : char_free "/"%char
                (componentUtils.GetComponentAddressStr Kb.keynodes
                   Kb.component_with_plain_address 13))
    by (apply rfind_char_None; reflexivity).
  split; [exact H|].
  exact (GetComponentDirName_no_slash Kb.keynodes Kb.component_with_plain_address 13
           "specs" H).
Defined.

(** ** Loading the files of a directory *)

Section Load.
Variable opendir : string -> option (list string).

Lemma read_entries_spec (dirPath : string) (entries : list string) :
  forall (loaded : list string) (result : bool),
    LoadUtils.read_entries dirPath entries loaded result
    = (loaded ++ map (fun f => (dirPath ++ "/" ++ f)%string)
                     (filter (fun f => StdString.found (StdString.rfind f ".scs")) entries),
       result || existsb (fun f => StdString.found (StdString.rfind f ".scs")) entries).
Proof.
  induction entries as [|f entries IH]; intros loaded result; simpl.
  - rewrite app_nil_r, orb_false_r. reflexivity.
  - destruct (StdString.rfind f ".scs") as [i|]; simpl.
    + rewrite IH, <- app_assoc, orb_true_r. reflexivity.
    + apply IH.
Qed.

(** [LoadScsFilesInDir] hands to the loader exactly the entries of the
    directory whose name has ".scs" somewhere in it (not only at its end),
    each as [dirPath/name]; nothing when the directory cannot be opened. *)
Theorem LoadScsFilesInDir_loaded (dirPath path : string) :
  In path (fst (LoadUtils.LoadScsFilesInDir opendir dirPath)) <->
  exists entries name,
    opendir dirPath = Some entries /\ In name entries /\ occurs_in ".scs" name /\
    path = (dirPath ++ "/" ++ name)%string.
Proof.
  unfold LoadUtils.LoadScsFilesInDir. destruct (opendir dirPath) as [entries|].
  - rewrite read_entries_spec. simpl. rewrite in_map_iff. split.
    + intros [name [<- Hn]]. apply filter_In in Hn. destruct Hn as [Hin Hf].
      exists entries, name. split; [reflexivity|]. split; [exact Hin|].
      split; [apply rfind_found; exact Hf|reflexivity].
    + intros [entries' [name [He [Hin [Hocc ->]]]]]. injection He as <-.
      exists name. split; [reflexivity|]. apply filter_In.
      split; [exact Hin|apply rfind_found; exact Hocc].
  - simpl. split; [intros []|]. intros [entries [name [He _]]]. discriminate.
Qed.

(** [LoadScsFilesInDir] returns true exactly when the directory can be
    opened and has an entry with ".scs" in its name, which is exactly when it
    handed some file to the loader. *)
Theorem LoadScsFilesInDir_result (dirPath : string) :
  (snd (LoadUtils.LoadScsFilesInDir opendir dirPath) = true <->
   exists entries name,
     opendir dirPath = Some entries /\ In name entries /\ occurs_in ".scs" name)
  /\
  (snd (LoadUtils.LoadScsFilesInDir opendir dirPath) = true <->
   fst (LoadUtils.LoadScsFilesInDir opendir dirPath) <> []).
Proof.
  unfold LoadUtils.LoadScsFilesInDir. destruct (opendir dirPath) as [entries|].
  - rewrite read_entries_spec. simpl. split.
    + rewrite existsb_exists. split.
      * intros [name [Hin Hf]]. exists entries, name.
        split; [reflexivity|]. split; [exact Hin|apply rfind_found; exact Hf].
      * intros [entries' [name [He [Hin Hocc]]]]. injection He as <-.
        exists name. split; [exact Hin|apply rfind_found; exact Hocc].
    + induction entries as [|f entries IH]; simpl.
      * split; [discriminate|]. intros H. exfalso. apply H. reflexivity.
      * destruct (StdString.found (StdString.rfind f ".scs")); simpl.
        -- split; [discriminate|reflexivity].
        -- exact IH.
  - simpl. split.
    + split; [discriminate|]. intros [entries [name [He _]]]. discriminate.
    + split; [discriminate|]. intros H. exfalso. apply H. reflexivity.
Qed.

End Load.

(** A backup copy of a specification is loaded along with it. *)
Example LoadScsFilesInDir_backup_copy :
  LoadUtils.LoadScsFilesInDir Kb.opendir "/tmp/kb/spec"
  = (["/tmp/kb/spec/specification.scs"; "/tmp/kb/spec/old.scs.bak"], true).
Proof. reflexivity. Qed.

(** ** Single look-ups and the success of the address queries *)

Section Lookups.
Variable keynodes : Keynodes.
Variable ctx : ScMemoryContext.

(** A look-up that takes the first tuple of a relation iterator: what comes
    back is valid exactly when the relation has a pair, and is then the
    second element of one. *)
Lemma first_related_spec (rel src : ScAddr) (T : ScType) :
  let r := match Iterator5_f_a_a_a_f ctx src ScType.EdgeDCommonConst T
                   ScType.EdgeAccessConstPosPerm rel with
           | q :: _ => q2 q
           | [] => Empty
           end in
  ((exists tgt, related ctx rel src T tgt) -> related ctx rel src T r) /\
  ((forall tgt, ~ related ctx rel src T tgt) -> r = Empty) /\
  (IsValid r = true -> related ctx rel src T r).
Proof.
  intros r. subst r.
  destruct (Iterator5_f_a_a_a_f ctx src _ T _ rel) as [|q l] eqn:E.
  - split; [|split].
    + intros [tgt H]. apply related_iff in H. rewrite E in H. destruct H.
    + reflexivity.
    + discriminate.
  - pose proof (head_related _ _ _ _ _ _ E) as Hq. split; [|split].
    + intros _. exact Hq.
    + intros H. exfalso. exact (H _ Hq).
    + intros _. exact Hq.
Qed.

(** [GetComponentAddress] returns an address link of the component when it
    has one and the empty address when it has none; a valid answer is always
    an address link of the component. *)
Theorem GetComponentAddress_spec (c : ScAddr) :
  ((exists l, component_address_of keynodes ctx c l) ->
   component_address_of keynodes ctx c (componentUtils.GetComponentAddress keynodes ctx c))
  /\
  ((forall l, ~ component_address_of keynodes ctx c l) ->
   componentUtils.GetComponentAddress keynodes ctx c = Empty)
  /\
  (IsValid (componentUtils.GetComponentAddress keynodes ctx c) = true ->
   component_address_of keynodes ctx c (componentUtils.GetComponentAddress keynodes ctx c)).
Proof.
  exact (first_related_spec (nrel_component_address keynodes) c ScType.LinkConst).
Qed.

(** [GetComponentInstallationMethod] returns an installation method of the
    component when it has one and the empty address when it has none; a
    valid answer is always an installation method of the component. *)
Theorem GetComponentInstallationMethod_spec (c : ScAddr) :
  ((exists m, installation_method_of keynodes ctx c m) ->
   installation_method_of keynodes ctx c
     (componentUtils.GetComponentInstallationMethod keynodes ctx c))
  /\
  ((forall m, ~ installation_method_of keynodes ctx c m) ->
   componentUtils.GetComponentInstallationMethod keynodes ctx c = Empty)
  /\
  (IsValid (componentUtils.GetComponentInstallationMethod keynodes ctx c) = true ->
   installation_method_of keynodes ctx c
     (componentUtils.GetComponentInstallationMethod keynodes ctx c)).
Proof.
  exact (first_related_spec (nrel_installation_method keynodes) c ScType.NodeConst).
Qed.

End Lookups.

Section AddressSuccess.
Variable keynodes : Keynodes.
Variable ctx : ScMemoryContext.

(** [GetSpecificationAddress] never returns an empty vector (its header
    comment promises one when no link is found): what it returns has at
    least one element, and every element is a link attached to the address
    node chosen from a set of alternative addresses of the specification. *)
Theorem GetSpecificationAddress_never_empty (c : ScAddr) (links : list ScAddr) :
  outcome (componentUtils.GetSpecificationAddress keynodes ctx c) = inr links ->
  links <> [] /\
  exists s, alternative_addresses_of keynodes ctx c s /\
            (exists x, set_member ctx s x) /\
            forall l, In l links <->
                      address_link_of ctx
                        (componentUtils.chooseSpecificationAddress keynodes ctx s) l.
Proof.
  unfold componentUtils.GetSpecificationAddress, alternative_addresses_of, set_member,
    address_link_of.
  destruct (Iterator5_f_a_a_a_f ctx c _ _ _ (nrel_alternative_addresses keynodes))
    as [|q qs] eqn:E; [discriminate|].
  destruct (utils.isEmpty ctx (q2 q)) eqn:Hem; [discriminate|].
  destruct (utils.getAllWithType ctx _ ScType.LinkConst) as [|x xs] eqn:El;
    [discriminate|].
  simpl. intros H. injection H as <-. split; [discriminate|].
  exists (q2 q). split; [exact (head_related _ _ _ _ _ _ E)|]. split.
  - unfold utils.isEmpty in Hem.
    destruct (Iterator3_f_a_a ctx (q2 q) _ _) as [|t ts] eqn:E3; [discriminate|].
    exists (t2 t). apply member_iff. unfold utils.getAllWithType. rewrite E3.
    left. reflexivity.
  - intros l. rewrite member_iff, El. reflexivity.
Qed.

(** [GetSpecificationAddress] succeeds when the specification has a set of
    alternative addresses, non-empty, whose chosen address node has a link:
    it returns all the links of that node and logs nothing. *)
Theorem GetSpecificationAddress_success (c : ScAddr) :
  (exists s, alternative_addresses_of keynodes ctx c s) ->
  (forall s, alternative_addresses_of keynodes ctx c s ->
             (exists x, set_member ctx s x) /\
             exists l, address_link_of ctx
                         (componentUtils.chooseSpecificationAddress keynodes ctx s) l) ->
  exists s, alternative_addresses_of keynodes ctx c s /\
            componentUtils.GetSpecificationAddress keynodes ctx c
            = ([], inr (utils.getAllWithType ctx
                          (componentUtils.chooseSpecificationAddress keynodes ctx s)
                          ScType.LinkConst)).
Proof.
  unfold alternative_addresses_of, set_member, address_link_of,
    componentUtils.GetSpecificationAddress.
  intros Hex Hall. destruct (some_related_cons _ _ _ _ Hex) as [q [qs E]].
  rewrite E. pose proof (head_related _ _ _ _ _ _ E) as Hq.
  destruct (Hall _ Hq) as [[x Hx] [l Hl]]. exists (q2 q). split; [exact Hq|].
  destruct (utils.isEmpty ctx (q2 q)) eqn:Hem.
  - exfalso. exact (proj1 (isEmpty_iff _ _) Hem x Hx).
  - apply member_iff in Hl.
    destruct (utils.getAllWithType ctx _ ScType.LinkConst) as [|y ys];
      [destruct Hl|reflexivity].
Qed.

End AddressSuccess.

Lemma GetSpecificationAddress_never_empty_witness :
  outcome (componentUtils.GetSpecificationAddress Kb.keynodes Kb.spec_two_addresses 13)
  = inr [24] /\
  [24] <> [] /\
  exists s, alternative_addresses_of Kb.keynodes Kb.spec_two_addresses 13 s /\
            (exists x, set_member Kb.spec_two_addresses s x) /\
            forall l, In l [24] <->
                      address_link_of Kb.spec_two_addresses
                        (componentUtils.chooseSpecificationAddress Kb.keynodes
                           Kb.spec_two_addresses s) l.
Proof.
  split; [reflexivity|].
  exact (GetSpecificationAddress_never_empty Kb.keynodes Kb.spec_two_addresses 13 [24]
           eq_refl).
Defined.

Lemma GetSpecificationAddress_success_witness :
  (exists s, alternative_addresses_of Kb.keynodes Kb.spec_three_links 13 s) /\
  exists s, alternative_addresses_of Kb.keynodes Kb.spec_three_links 13 s /\
            componentUtils.GetSpecificationAddress Kb.keynodes Kb.spec_three_links 13
            = ([], inr (utils.getAllWithType Kb.spec_three_links
                          (componentUtils.chooseSpecificationAddress Kb.keynodes
                             Kb.spec_three_links s)
                          ScType.LinkConst)).
Proof.
  assert (H1 : exists s, alternative_addresses_of Kb.keynodes Kb.spec_three_links 13 s).
  { exists 14. kb_holds. }
  split; [exact H1|].
  apply (GetSpecificationAddress_success Kb.keynodes Kb.spec_three_links 13 H1).
  intros s Hs. kb_in Hs. split.
  - exists 17. kb_holds.
  - exists 22. kb_holds.
Defined.

(** ** Dependencies are not merged *)

Section DependencyRepeats.
Variable keynodes : Keynodes.
Variable ctx : ScMemoryContext.

Lemma count_occ_flat_map_ge {A : Type} (g : A -> list nat) (d : nat) (a : A)
  (l : list A) :
  In a l ->
  count_occ Nat.eq_dec (g a) d <= count_occ Nat.eq_dec (flat_map g l) d.
Proof.
  induction l as [|x l IH]; intros Hin; [destruct Hin|].
  simpl. rewrite count_occ_app. destruct Hin as [->|Hin]; [lia|].
  specialize (IH Hin). lia.
Qed.

Lemma count_occ_flat_map_two {A : Type} (g : A -> list nat) (d : nat) (a b : A)
  (l : list A) :
  In a l -> In b l -> a <> b ->
  1 <= count_occ Nat.eq_dec (g a) d -> 1 <= count_occ Nat.eq_dec (g b) d ->
  2 <= count_occ Nat.eq_dec (flat_map g l) d.
Proof.
  induction l as [|x l IH]; intros Ha Hb Hab Hga Hgb; [destruct Ha|].
  simpl. rewrite count_occ_app.
  destruct Ha as [->|Ha], Hb as [->|Hb].
  - exfalso. apply Hab. reflexivity.
  - pose proof (count_occ_flat_map_ge g d b l Hb). lia.
  - pose proof (count_occ_flat_map_ge g d a l Ha). lia.
  - specialize (IH Ha Hb Hab Hga Hgb). lia.
Qed.

(** A component listed in two different dependency sets of [c] is returned
    (at least) twice by [GetComponentDependencies]: the sets are appended
    one after the other, not merged. *)
Theorem GetComponentDependencies_keeps_repeats (c s1 s2 d : ScAddr) :
  dependency_set_of keynodes ctx c s1 ->
  dependency_set_of keynodes ctx c s2 ->
  s1 <> s2 ->
  dependency_in ctx s1 d ->
  dependency_in ctx s2 d ->
  2 <= count_occ Nat.eq_dec (componentUtils.GetComponentDependencies keynodes ctx c) d.
Proof.
  unfold dependency_set_of, dependency_in, componentUtils.GetComponentDependencies.
  intros H1 H2 Hneq Hd1 Hd2.
  rewrite collect_dependencies_flat_map. simpl.
  apply related_iff in H1. apply related_iff in H2.
  apply in_map_iff in H1. apply in_map_iff in H2.
  destruct H1 as [qa [Ea Ha]], H2 as [qb [Eb Hb]].
  apply (count_occ_flat_map_two _ d qa qb); try assumption.
  - intros ->. apply Hneq. rewrite <- Ea, <- Eb. reflexivity.
  - apply count_occ_In. rewrite Ea. apply member_iff. exact Hd1.
  - apply count_occ_In. rewrite Eb. apply member_iff. exact Hd2.
Qed.

End DependencyRepeats.

Lemma GetComponentDependencies_keeps_repeats_witness :
  dependency_set_of Kb.keynodes Kb.two_dependency_sets 13 14 /\
  dependency_set_of Kb.keynodes Kb.two_dependency_sets 13 19 /\
  14 <> 19 /\
  dependency_in Kb.two_dependency_sets 14 18 /\
  dependency_in Kb.two_dependency_sets 19 18 /\
  2 <= count_occ Nat.eq_dec
         (componentUtils.GetComponentDependencies Kb.keynodes Kb.two_dependency_sets 13) 18.
Proof.
  assert (H1 : dependency_set_of Kb.keynodes Kb.two_dependency_sets 13 14) by kb_holds.
  assert (H2 : dependency_set_of Kb.keynodes Kb.two_dependency_sets 13 19) by kb_holds.
  assert (H3 : 14 <> 19) by discriminate.
  assert (H4 : dependency_in Kb.two_dependency_sets 14 18) by kb_holds.
  assert (H5 : dependency_in Kb.two_dependency_sets 19 18) by kb_holds.
  repeat (split; [assumption|]).
  exact (GetComponentDependencies_keeps_repeats Kb.keynodes Kb.two_dependency_sets
           13 14 19 18 H1 H2 H3 H4 H5).
Defined.

(** ** More on the download handler *)

Section DownloadPaths.
Variable keynodes : Keynodes.
Variable constants : DownloaderHandler.Constants.

Lemma getDownloadableClass_cases (ctx : ScMemoryContext) (nodeAddr : ScAddr) :
  (in_class ctx (concept_repository keynodes) nodeAddr ->
   DownloaderHandler.getDownloadableClass keynodes ctx nodeAddr
   = concept_repository keynodes)
  /\
  (~ in_class ctx (concept_repository keynodes) nodeAddr ->
   in_class ctx (concept_reusable_component_specification keynodes) nodeAddr ->
   DownloaderHandler.getDownloadableClass keynodes ctx nodeAddr
   = concept_reusable_component_specification keynodes)
  /\
  (~ in_class ctx (concept_repository keynodes) nodeAddr ->
   ~ in_class ctx (concept_reusable_component_specification keynodes) nodeAddr ->
   DownloaderHandler.getDownloadableClass keynodes ctx nodeAddr = Empty).
Proof.
  unfold DownloaderHandler.getDownloadableClass. simpl.
  pose proof (in_class_iff ctx (concept_repository keynodes) nodeAddr) as Hr.
  pose proof (in_class_iff ctx (concept_reusable_component_specification keynodes) nodeAddr)
    as Hs.
  destruct (HelperCheckEdge ctx (concept_repository keynodes) nodeAddr _);
    destruct (HelperCheckEdge ctx (concept_reusable_component_specification keynodes)
                nodeAddr _);
    repeat split; intros; try reflexivity;
    repeat match goal with
           | H : ~ in_class _ _ _ |- _ => exfalso; apply H; tauto
           | H : in_class _ _ _ |- _ => first [apply Hr in H | apply Hs in H]; discriminate
           end.
Qed.

(** [getDownloadableClass]: the repository class wins over the specification
    class, and the empty address comes back when the node is in neither. *)
Theorem getDownloadableClass_precedence (ctx : ScMemoryContext) (nodeAddr : ScAddr) :
  (in_class ctx (concept_repository keynodes) nodeAddr ->
   DownloaderHandler.getDownloadableClass keynodes ctx nodeAddr
   = concept_repository keynodes)
  /\
  (~ in_class ctx (concept_repository keynodes) nodeAddr ->
   in_class ctx (concept_reusable_component_specification keynodes) nodeAddr ->
   DownloaderHandler.getDownloadableClass keynodes ctx nodeAddr
   = concept_reusable_component_specification keynodes)
  /\
  (~ in_class ctx (concept_repository keynodes) nodeAddr ->
   ~ in_class ctx (concept_reusable_component_specification keynodes) nodeAddr ->
   DownloaderHandler.getDownloadableClass keynodes ctx nodeAddr = Empty).
Proof.
  exact (getDownloadableClass_cases ctx nodeAddr).
Qed.

(** [getUrlLinkClass]: the GitHub class wins over the Google Drive class,
    and the empty address comes back when the link is in neither. *)
Theorem getUrlLinkClass_precedence (ctx : ScMemoryContext) (linkAddr : ScAddr) :
  (in_class ctx (concept_github_url keynodes) linkAddr ->
   DownloaderHandler.getUrlLinkClass keynodes ctx linkAddr = concept_github_url keynodes)
  /\
  (~ in_class ctx (concept_github_url keynodes) linkAddr ->
   in_class ctx (concept_google_drive_url keynodes) linkAddr ->
   DownloaderHandler.getUrlLinkClass keynodes ctx linkAddr
   = concept_google_drive_url keynodes)
  /\
  (~ in_class ctx (concept_github_url keynodes) linkAddr ->
   ~ in_class ctx (concept_google_drive_url keynodes) linkAddr ->
   DownloaderHandler.getUrlLinkClass keynodes ctx linkAddr = Empty).
Proof.
  unfold DownloaderHandler.getUrlLinkClass. simpl.
  pose proof (in_class_iff ctx (concept_github_url keynodes) linkAddr) as Hg.
  pose proof (in_class_iff ctx (concept_google_drive_url keynodes) linkAddr) as Hd.
  destruct (HelperCheckEdge ctx (concept_github_url keynodes) linkAddr _);
    destruct (HelperCheckEdge ctx (concept_google_drive_url keynodes) linkAddr _);
    repeat split; intros; try reflexivity;
    repeat match goal with
           | H : ~ in_class _ _ _ |- _ => exfalso; apply H; tauto
           | H : in_class _ _ _ |- _ => first [apply Hg in H | apply Hd in H]; discriminate
           end.
Qed.

(** The loop of [Download] on links whose content can be read: one fetch for
    each GitHub link, in the order of the links and all into the same
    directory, from the link's content followed by [SVN_TRUNK], the
    delimiter and the postfix; the loop does not stop at the first fetch. *)
Theorem download_links_fetches (ctx : ScMemoryContext) (links : list ScAddr)
  (post path : string) :
  (forall l, In l links -> GetLinkContent ctx l <> None) ->
  forall url : string,
    DownloaderHandler.download_links keynodes constants ctx links post path url
    = (map (fun l => GitDownload
                       (GetLinkContent_into ctx l ""
                        ++ DownloaderHandler.SVN_TRUNK constants
                        ++ DownloaderHandler.DIRECTORY_DELIMETR constants ++ post)%string
                       path)
           (filter (fun l => DownloaderHandler.getUrlLinkClass keynodes ctx l
                             =? concept_github_url keynodes) links),
       inr tt).
Proof.
  induction links as [|l links IH]; intros Hc url; [reflexivity|].
  assert (Hrest : forall x, In x links -> GetLinkContent ctx x <> None).
  { intros x Hx. apply Hc. right. exact Hx. }
  cbn [DownloaderHandler.download_links filter map].
  destruct (DownloaderHandler.getUrlLinkClass keynodes ctx l =? concept_github_url keynodes).
  - rewrite (IH Hrest). unfold DownloaderHandler.DownloaderGit_Download, emit, bind.
    simpl. unfold GetLinkContent_into.
    destruct (GetLinkContent ctx l) as [c|] eqn:E; [reflexivity|].
    exfalso. apply (Hc l); [left; reflexivity|exact E].
  - apply IH. exact Hrest.
Qed.

Lemma GetSpecificationAddress_cases ctx c :
  (exists e, componentUtils.GetSpecificationAddress keynodes ctx c = ([], inl e) /\
             In e [ExceptionItemNotFound "No alternative addresses set found";
                   ExceptionAssert "Alternative addresses set is empty";
                   ExceptionAssert "No sc-links connected with address node"])
  \/ (exists links, componentUtils.GetSpecificationAddress keynodes ctx c = ([], inr links)).
Proof.
  unfold componentUtils.GetSpecificationAddress.
  destruct (Iterator5_f_a_a_a_f ctx c ScType.EdgeDCommonConst ScType.NodeTuple
              ScType.EdgeAccessConstPosPerm (nrel_alternative_addresses keynodes))
    as [|q qs]; [left; eexists; split; [reflexivity|simpl; tauto]|].
  destruct (utils.isEmpty ctx (q2 q)); [left; eexists; split; [reflexivity|simpl; tauto]|].
  destruct (utils.getAllWithType ctx
              (componentUtils.chooseSpecificationAddress keynodes ctx (q2 q))
              ScType.LinkConst);
    [left; eexists; split; [reflexivity|simpl; tauto]|].
  right. eexists. reflexivity.
Qed.

Lemma GetRepositoryAddress_cases ctx r :
  (exists e, componentUtils.GetRepositoryAddress keynodes ctx r = ([], inl e) /\
             In e [ExceptionItemNotFound "No address found for repository";
                   ExceptionItemNotFound "No links for repository address found"])
  \/ (exists l, componentUtils.GetRepositoryAddress keynodes ctx r = ([], inr l)).
Proof.
  unfold componentUtils.GetRepositoryAddress.
  destruct (Iterator5_f_a_a_a_f ctx r ScType.EdgeDCommonConst ScType.NodeConst
              ScType.EdgeAccessConstPosPerm (nrel_repository_address keynodes))
    as [|q qs]; [left; eexists; split; [reflexivity|simpl; tauto]|].
  destruct (Iterator3_f_a_a ctx (q2 q) ScType.EdgeAccessConstPosPerm ScType.LinkConst);
    [left; eexists; split; [reflexivity|simpl; tauto]|].
  right. eexists. reflexivity.
Qed.

Lemma download_links_value ctx links post path url :
  DownloaderHandler.download_links keynodes constants ctx links post path url
  = (trace (DownloaderHandler.download_links keynodes constants ctx links post path url),
     inr tt).
Proof.
  pose proof (proj1 (download_links_trace keynodes constants ctx links post path url)) as H.
  destruct (DownloaderHandler.download_links keynodes constants ctx links post path url)
    as [tr r]. simpl in *. rewrite H. reflexivity.
Qed.

Lemma download_addresses_raises ctx (nodeClassAddr nodeAddr : ScAddr) (path : string)
  (e : ScException) :
  outcome (DownloaderHandler.download_addresses keynodes constants ctx
             nodeClassAddr nodeAddr path) = inl e ->
  trace (DownloaderHandler.download_addresses keynodes constants ctx
           nodeClassAddr nodeAddr path) = [] /\
  In e [ExceptionItemNotFound "No alternative addresses set found";
        ExceptionAssert "Alternative addresses set is empty";
        ExceptionAssert "No sc-links connected with address node";
        ExceptionItemNotFound "No address found for repository";
        ExceptionItemNotFound "No links for repository address found"].
Proof.
  unfold DownloaderHandler.download_addresses.
  destruct (nodeClassAddr =? concept_reusable_component_specification keynodes);
    destruct (nodeClassAddr =? concept_repository keynodes).
  - destruct (GetSpecificationAddress_cases ctx nodeAddr) as [[x [-> Hx]]|[links ->]].
    + simpl. intros H. injection H as <-. split; [reflexivity|].
      simpl in Hx. simpl. tauto.
    + destruct (GetRepositoryAddress_cases ctx nodeAddr) as [[x [-> Hx]]|[l ->]].
      * simpl. intros H. injection H as <-. split; [reflexivity|].
        simpl in Hx. simpl. tauto.
      * unfold ret, bind. rewrite download_links_value. simpl. discriminate.
  - destruct (GetSpecificationAddress_cases ctx nodeAddr) as [[x [-> Hx]]|[links ->]].
    + simpl. intros H. injection H as <-. split; [reflexivity|].
      simpl in Hx. simpl. tauto.
    + unfold ret, bind. rewrite download_links_value. simpl. discriminate.
  - destruct (GetRepositoryAddress_cases ctx nodeAddr) as [[x [-> Hx]]|[l ->]].
    + simpl. intros H. injection H as <-. split; [reflexivity|].
      simpl in Hx. simpl. tauto.
    + unfold ret, bind. rewrite download_links_value. simpl. discriminate.
  - unfold ret, bind. rewrite download_links_value. simpl. discriminate.
Qed.

(** [Download] lets the exceptions of the address queries through, and only
    those; when one escapes, the directory of the component has already
    been created and nothing else has been done. *)
Theorem Download_raises_after_mkdirs (h : DownloaderHandler.Handler)
  (ctx : ScMemoryContext) (nodeAddr : ScAddr) (e : ScException) :
  outcome (DownloaderHandler.Download keynodes constants h ctx nodeAddr) = inl e ->
  trace (DownloaderHandler.Download keynodes constants h ctx nodeAddr)
  = [FsMkdirs (DownloaderHandler.downloadPath_of constants h ctx nodeAddr)] /\
  DownloaderHandler.fs_mkdirs_ok h (DownloaderHandler.downloadPath_of constants h ctx nodeAddr)
  = true /\
  In e [ExceptionItemNotFound "No alternative addresses set found";
        ExceptionAssert "Alternative addresses set is empty";
        ExceptionAssert "No sc-links connected with address node";
        ExceptionItemNotFound "No address found for repository";
        ExceptionItemNotFound "No links for repository address found"].
Proof.
  unfold DownloaderHandler.Download.
  destruct (IsValid (DownloaderHandler.getDownloadableClass keynodes ctx nodeAddr));
    simpl negb; cbv iota; [|discriminate].
  unfold DownloaderHandler.sc_fs_mkdirs, emit, ret. unfold bind at 2. simpl app.
  unfold bind at 1.
  destruct (DownloaderHandler.fs_mkdirs_ok h _) eqn:Hfs; simpl negb; cbv iota;
    [|discriminate].
  pose proof (download_addresses_raises ctx
                (DownloaderHandler.getDownloadableClass keynodes ctx nodeAddr) nodeAddr
                (DownloaderHandler.downloadPath_of constants h ctx nodeAddr) e) as H.
  destruct (DownloaderHandler.download_addresses keynodes constants ctx _ nodeAddr _)
    as [tr r].
  simpl in *. intros Hr. destruct (H Hr) as [-> Hin]. tauto.
Qed.

End DownloadPaths.

Section DownloadByClass.
Variable keynodes : Keynodes.
Variable constants : DownloaderHandler.Constants.

Lemma Download_after_mkdirs (h : DownloaderHandler.Handler) (ctx : ScMemoryContext)
  (nodeAddr : ScAddr) :
  IsValid (DownloaderHandler.getDownloadableClass keynodes ctx nodeAddr) = true ->
  DownloaderHandler.fs_mkdirs_ok h (DownloaderHandler.downloadPath_of constants h ctx nodeAddr)
  = true ->
  DownloaderHandler.Download keynodes constants h ctx nodeAddr
  = (FsMkdirs (DownloaderHandler.downloadPath_of constants h ctx nodeAddr)
       :: trace (DownloaderHandler.download_addresses keynodes constants ctx
                   (DownloaderHandler.getDownloadableClass keynodes ctx nodeAddr) nodeAddr
                   (DownloaderHandler.downloadPath_of constants h ctx nodeAddr)),
     outcome (DownloaderHandler.download_addresses keynodes constants ctx
                (DownloaderHandler.getDownloadableClass keynodes ctx nodeAddr) nodeAddr
                (DownloaderHandler.downloadPath_of constants h ctx nodeAddr))).
Proof.
  intros Hvalid Hfs. unfold DownloaderHandler.Download.
  rewrite Hvalid. simpl negb. cbv iota.
  unfold DownloaderHandler.sc_fs_mkdirs, emit, ret. unfold bind at 2. simpl app.
  unfold bind at 1. rewrite Hfs. simpl negb. cbv iota.
  destruct (DownloaderHandler.download_addresses keynodes constants ctx _ nodeAddr _)
    as [tr r].
  reflexivity.
Qed.

(** [Download] of a repository (also one that is a specification as well):
    once the directory is made, the repository address is looked up and the
    alternative addresses are not; a failed look-up escapes as an exception,
    a link that is not a GitHub link is left alone, and a GitHub link is
    fetched from its content followed by [SVN_TRUNK] and the delimiter. *)
Theorem Download_repository (h : DownloaderHandler.Handler) (ctx : ScMemoryContext)
  (nodeAddr : ScAddr) :
  in_class ctx (concept_repository keynodes) nodeAddr ->
  IsValid (concept_repository keynodes) = true ->
  concept_repository keynodes <> concept_reusable_component_specification keynodes ->
  DownloaderHandler.fs_mkdirs_ok h (DownloaderHandler.downloadPath_of constants h ctx nodeAddr)
  = true ->
  DownloaderHandler.Download keynodes constants h ctx nodeAddr
  = match outcome (componentUtils.GetRepositoryAddress keynodes ctx nodeAddr) with
    | inl e =>
        ([FsMkdirs (DownloaderHandler.downloadPath_of constants h ctx nodeAddr)], inl e)
    | inr link =>
        (FsMkdirs (DownloaderHandler.downloadPath_of constants h ctx nodeAddr)
           :: (if DownloaderHandler.getUrlLinkClass keynodes ctx link
                  =? concept_github_url keynodes
               then [GitDownload
                       (GetLinkContent_into ctx link ""
                        ++ DownloaderHandler.SVN_TRUNK constants
                        ++ DownloaderHandler.DIRECTORY_DELIMETR constants ++ "")%string
                       (DownloaderHandler.downloadPath_of constants h ctx nodeAddr)]
               else []),
         inr tt)
    end.
Proof.
  intros Hin Hvalid Hneq Hfs.
  pose proof (proj1 (getDownloadableClass_cases keynodes ctx nodeAddr) Hin) as Hcls.
  rewrite Download_after_mkdirs; [|rewrite Hcls; exact Hvalid|exact Hfs].
  rewrite Hcls. unfold DownloaderHandler.download_addresses.
  apply Nat.eqb_neq in Hneq. rewrite Hneq, Nat.eqb_refl.
  destruct (GetRepositoryAddress_cases keynodes ctx nodeAddr) as [[x [-> _]]|[l ->]].
  - reflexivity.
  - simpl.
    destruct (DownloaderHandler.getUrlLinkClass keynodes ctx l =? concept_github_url keynodes);
      reflexivity.
Qed.

(** [Download] of a specification that is not a repository: once the
    directory is made, the alternative addresses are looked up; a failed
    look-up escapes as an exception, and otherwise the links found go
    through the loop with the specification file name as postfix. *)
Theorem Download_specification (h : DownloaderHandler.Handler) (ctx : ScMemoryContext)
  (nodeAddr : ScAddr) :
  ~ in_class ctx (concept_repository keynodes) nodeAddr ->
  in_class ctx (concept_reusable_component_specification keynodes) nodeAddr ->
  IsValid (concept_reusable_component_specification keynodes) = true ->
  DownloaderHandler.fs_mkdirs_ok h (DownloaderHandler.downloadPath_of constants h ctx nodeAddr)
  = true ->
  DownloaderHandler.Download keynodes constants h ctx nodeAddr
  = match outcome (componentUtils.GetSpecificationAddress keynodes ctx nodeAddr) with
    | inl e =>
        ([FsMkdirs (DownloaderHandler.downloadPath_of constants h ctx nodeAddr)], inl e)
    | inr links =>
        (FsMkdirs (DownloaderHandler.downloadPath_of constants h ctx nodeAddr)
           :: trace (DownloaderHandler.download_links keynodes constants ctx links
                       (DownloaderHandler.SPECIFICATION_FILENAME constants)
                       (DownloaderHandler.downloadPath_of constants h ctx nodeAddr) ""),
         inr tt)
    end.
Proof.
  intros Hnr Hin Hvalid Hfs.
  pose proof (proj1 (proj2 (getDownloadableClass_cases keynodes ctx nodeAddr)) Hnr Hin)
    as Hcls.
  rewrite Download_after_mkdirs; [|rewrite Hcls; exact Hvalid|exact Hfs].
  rewrite Hcls. unfold DownloaderHandler.download_addresses.
  assert (Hneq : (concept_reusable_component_specification keynodes
                  =? concept_repository keynodes) = false).
  { apply Nat.eqb_neq. intros E. apply Hnr. rewrite <- E. exact Hin. }
  rewrite Hneq, Nat.eqb_refl.
  destruct (GetSpecificationAddress_cases keynodes ctx nodeAddr) as [[x [-> _]]|[links ->]].
  - reflexivity.
  - unfold ret, bind. simpl fst. simpl snd.
    rewrite (download_links_value keynodes constants ctx links).
    reflexivity.
Qed.

End DownloadByClass.

Lemma getDownloadableClass_precedence_witness :
  in_class Kb.repo_and_spec (concept_repository Kb.keynodes) 13 /\
  in_class Kb.repo_and_spec (concept_reusable_component_specification Kb.keynodes) 13 /\
  DownloaderHandler.getDownloadableClass Kb.keynodes Kb.repo_and_spec 13
  = concept_repository Kb.keynodes.
Proof.
  assert (H1 : in_class Kb.repo_and_spec (concept_repository Kb.keynodes) 13)
    by (apply in_class_iff; reflexivity).
  split; [exact H1|]. split; [apply in_class_iff; reflexivity|].
  exact (proj1 (getDownloadableClass_precedence Kb.keynodes Kb.repo_and_spec 13) H1).
Defined.

Lemma getUrlLinkClass_precedence_witness :
  ~ in_class Kb.repo_drive_link (concept_github_url Kb.keynodes) 17 /\
  in_class Kb.repo_drive_link (concept_google_drive_url Kb.keynodes) 17 /\
  DownloaderHandler.getUrlLinkClass Kb.keynodes Kb.repo_drive_link 17
  = concept_google_drive_url Kb.keynodes.
Proof.
  assert (H1 : ~ in_class Kb.repo_drive_link (concept_github_url Kb.keynodes) 17).
  { intros H. apply in_class_iff in H. discriminate. }
  assert (H2 : in_class Kb.repo_drive_link (concept_google_drive_url Kb.keynodes) 17)
    by (apply in_class_iff; reflexivity).
  split; [exact H1|]. split; [exact H2|].
  exact (proj1 (proj2 (getUrlLinkClass_precedence Kb.keynodes Kb.repo_drive_link 17)) H1 H2).
Defined.

Lemma download_links_fetches_witness :
  (forall l, In l [22; 24; 26] -> GetLinkContent Kb.spec_three_links l <> None) /\
  DownloaderHandler.download_links Kb.keynodes Kb.constants Kb.spec_three_links
    [22; 24; 26] "specification.scs" "/tmp/kb/spec" ""
  = ([GitDownload "https://github.com/ostis/a/trunk/specification.scs" "/tmp/kb/spec";
      GitDownload "https://github.com/mirror/a/trunk/specification.scs" "/tmp/kb/spec"],
     inr tt).
Proof.
  assert (H : forall l, In l [22; 24; 26] -> GetLinkContent Kb.spec_three_links l <> None).
  { intros l [<-|[<-|[<-|[]]]]; discriminate. }
  split; [exact H|].
  exact (download_links_fetches Kb.keynodes Kb.constants Kb.spec_three_links
           [22; 24; 26] "specification.scs" "/tmp/kb/spec" H "").
Defined.

Lemma Download_raises_after_mkdirs_witness :
  outcome (DownloaderHandler.Download Kb.keynodes Kb.constants Kb.handler_ok
             Kb.spec_no_links 13)
  = inl (ExceptionAssert "No sc-links connected with address node") /\
  trace (DownloaderHandler.Download Kb.keynodes Kb.constants Kb.handler_ok
           Kb.spec_no_links 13)
  = [FsMkdirs "/tmp/kb/spec"].
Proof.
  split; [reflexivity|].
  exact (proj1 (Download_raises_after_mkdirs Kb.keynodes Kb.constants Kb.handler_ok
                  Kb.spec_no_links 13 _ eq_refl)).
Defined.

Lemma Download_repository_witness :
  in_class Kb.repo_and_spec (concept_repository Kb.keynodes) 13 /\
  DownloaderHandler.Download Kb.keynodes Kb.constants Kb.handler_ok Kb.repo_and_spec 13
  = ([FsMkdirs "/tmp/kb/both";
      GitDownload "https://github.com/ostis/kb/trunk/" "/tmp/kb/both"],
     inr tt).
Proof.
  assert (H1 : in_class Kb.repo_and_spec (concept_repository Kb.keynodes) 13)
    by (apply in_class_iff; reflexivity).
  split; [exact H1|].
  assert (H3 : concept_repository Kb.keynodes
               <> concept_reusable_component_specification Kb.keynodes) by discriminate.
  exact (Download_repository Kb.keynodes Kb.constants Kb.handler_ok Kb.repo_and_spec 13
           H1 eq_refl H3 eq_refl).
Defined.

Lemma Download_specification_witness :
  ~ in_class Kb.spec_no_alternatives (concept_repository Kb.keynodes) 13 /\
  in_class Kb.spec_no_alternatives (concept_reusable_component_specification Kb.keynodes) 13 /\
  DownloaderHandler.Download Kb.keynodes Kb.constants Kb.handler_ok Kb.spec_no_alternatives 13
  = ([FsMkdirs "/tmp/kb/spec"],
     inl (ExceptionItemNotFound "No alternative addresses set found")).
Proof.
  assert (H1 : ~ in_class Kb.spec_no_alternatives (concept_repository Kb.keynodes) 13).
  { intros H. apply in_class_iff in H. discriminate. }
  assert (H2 : in_class Kb.spec_no_alternatives
                 (concept_reusable_component_specification Kb.keynodes) 13)
    by (apply in_class_iff; reflexivity).
  split; [exact H1|]. split; [exact H2|].
  exact (Download_specification Kb.keynodes Kb.constants Kb.handler_ok
           Kb.spec_no_alternatives 13 H1 H2 eq_refl eq_refl).
Defined.

Lemma GetComponentAddress_spec_witness :
  (exists l, component_address_of Kb.keynodes Kb.component_with_url 13 l) /\
  componentUtils.GetComponentAddress Kb.keynodes Kb.component_with_url 13 = 14 /\
  component_address_of Kb.keynodes Kb.component_with_url 13 14 /\
  (forall l, ~ component_address_of Kb.keynodes Kb.repo_plain_link 13 l) /\
  componentUtils.GetComponentAddress Kb.keynodes Kb.repo_plain_link 13 = Empty.
Proof.
  assert (H1 : exists l, component_address_of Kb.keynodes Kb.component_with_url 13 l).
  { exists 14. unfold component_address_of. kb_holds. }
  assert (H2 : forall l, ~ component_address_of Kb.keynodes Kb.repo_plain_link 13 l).
  { intros l H. unfold component_address_of in H. kb_in H. }
  split; [exact H1|]. split; [reflexivity|].
  split; [exact (proj1 (GetComponentAddress_spec Kb.keynodes Kb.component_with_url 13) H1)|].
  split; [exact H2|].
  exact (proj1 (proj2 (GetComponentAddress_spec Kb.keynodes Kb.repo_plain_link 13)) H2).
Defined.

Lemma GetComponentInstallationMethod_spec_witness :
  (exists m, installation_method_of Kb.keynodes (Kb.install_kb false true) 13 m) /\
  componentUtils.GetComponentInstallationMethod Kb.keynodes (Kb.install_kb false true) 13
  = 14 /\
  installation_method_of Kb.keynodes (Kb.install_kb false true) 13 14 /\
  (forall m, ~ installation_method_of Kb.keynodes (Kb.install_kb true false) 13 m) /\
  componentUtils.GetComponentInstallationMethod Kb.keynodes (Kb.install_kb true false) 13
  = Empty.
Proof.
  assert (H1 : exists m, installation_method_of Kb.keynodes (Kb.install_kb false true) 13 m).
  { exists 14. kb_holds. }
  assert (H2 : forall m, ~ installation_method_of Kb.keynodes (Kb.install_kb true false) 13 m).
  { intros m H. kb_in H. }
  split; [exact H1|]. split; [reflexivity|].
  split; [exact (proj1 (GetComponentInstallationMethod_spec Kb.keynodes
                          (Kb.install_kb false true) 13) H1)|].
  split; [exact H2|].
  exact (proj1 (proj2 (GetComponentInstallationMethod_spec Kb.keynodes
                         (Kb.install_kb true false) 13)) H2).
Defined.
